(** * Opening-range breakout engine: a shallow embedding and its properties

    The development follows the two strategy files of the repository,
    [OpeningRangeBreakoutUniverseAlgorithm.py] (equity execution only) and
    [OpeningRangeBreakoutUniverseOptions.py] (equity or options execution).
    The second file contains the first one verbatim as its
    [use_options = False] paths, so one model serves both.

    Numbers.  Python [float]s are idealised as exact rationals ([Q]); Python
    [int]s are [Z].  Every concrete scenario below uses values for which the
    floating-point computation is exact or rounds to the same decimal, so the
    scenarios can be replayed on the source by hand.  The range of floats is
    modelled where the source converts the risk-based quotient to an integer:
    a quotient beyond the largest finite float is an infinity there, and
    [int] raises on it.

    Effects.  Everything the strategy asks of the QuantConnect platform
    (portfolio reads, indicator reads, order calls, history requests, the
    exchange calendar) goes through the [Platform] interface.  Handlers run in
    a small state-and-log monad over the platform state: every platform call
    is applied to the state and recorded, in order, in the log. *)

From Stdlib Require Import QArith ZArith List Bool Lia Lqa Qminmax Qabs String.
Import ListNotations.
Open Scope Q_scope.

(** ** Python numerics *)

(** [int(x)] on a float: truncation toward zero. *)
Definition int_trunc (x : Q) : Z := Z.quot (Qnum x) (Zpos (Qden x)).

(** [a < b] on floats. *)
Definition Qlt_bool (a b : Q) : bool := negb (Qle_bool b a).

(** Where floats end: a real result of magnitude [2^1024 - 2^970] or more
    rounds to an infinity (the largest finite float is [2^1024 - 2^971]). *)
Definition float_overflow : Q := inject_Z (2 ^ 1024 - 2 ^ 970).

(** [int(x)] on the float result of an operation whose exact value is [x]:
    [OverflowError] ([None]) when the result is an infinity. *)
Definition py_int (x : Q) : option Z :=
  if Qle_bool float_overflow (Qabs x) then None else Some (int_trunc x).

(** [a / b] on floats: raises [ZeroDivisionError] ([None]) on a zero divisor. *)
Definition pydiv (a b : Q) : option Q :=
  if Qeq_bool b 0 then None else Some (a / b).

(** [1 if x > 0 else -1]. *)
Definition sign_of (x : Z) : Z := if (0 <? x)%Z then 1%Z else (-1)%Z.

(** Truthiness of an optional float attribute: [None] and [0.0] are falsy. *)
Definition truthyQ (x : option Q) : bool :=
  match x with Some q => negb (Qeq_bool q 0) | None => false end.

(** Truthiness of an attribute holding an object or [None]. *)
Definition is_some {A} (x : option A) : bool :=
  match x with Some _ => true | None => false end.

(** [l[i:]] with Python's treatment of a negative start index. *)
Definition py_slice_from {A} (i : Z) (l : list A) : list A :=
  let n := Z.of_nat (List.length l) in
  if (i <? 0)%Z then skipn (Z.to_nat (Z.max 0 (n + i))) l
  else skipn (Z.to_nat i) l.

(** [l[i]] with Python's negative indices; [None] is [IndexError]. *)
Definition py_index {A} (i : Z) (l : list A) : option A :=
  let n := Z.of_nat (List.length l) in
  let j := if (i <? 0)%Z then (n + i)%Z else i in
  if (j <? 0)%Z || (n <=? j)%Z then None else nth_error l (Z.to_nat j).

(** [sorted(l, key=key)]: a stable sort, here by insertion. *)
Fixpoint insert_by {A} (key : A -> Q) (x : A) (l : list A) : list A :=
  match l with
  | [] => [x]
  | y :: t => if Qlt_bool (key x) (key y) then x :: y :: t
              else y :: insert_by key x t
  end.

Definition sorted_by {A} (key : A -> Q) (l : list A) : list A :=
  fold_left (fun acc x => insert_by key x acc) l [].

(** ** Identifiers, time *)

Definition Sym := nat.          (* a platform [Symbol] *)
Definition OrderId := nat.
Definition Time := Z.           (* minutes since an epoch midnight *)

Bind Scope nat_scope with Sym OrderId.
Bind Scope Z_scope with Time.

(** [t.date()]: the day a time falls in. *)
Definition date (t : Time) : Z := (t / 1440)%Z.

(** [t + timedelta(minutes=m)]. *)
Definition add_minutes (t : Time) (m : Z) : Time := (t + m)%Z.

Inductive OrderStatus := Working | Filled | Canceled | Rejected.

Definition OrderStatus_eqb (a b : OrderStatus) : bool :=
  match a, b with
  | Working, Working | Filled, Filled | Canceled, Canceled
  | Rejected, Rejected => true
  | _, _ => false
  end.

(** An order ticket as the strategy uses it: its id and requested quantity. *)
Record Ticket := { order_id : OrderId; ticket_quantity : Z }.

(** ** Parameters ([initialize]) *)

Record Params := {
  _stop_loss_atr_distance : Q;
  _stop_loss_risk_size : Q;
  _max_positions : Z;
  _opening_range_minutes : Z;
  _entry_buffer_atr : Q;
  _leverage : Q;
  _atr_price_floor : Q;
  _breakeven_trigger_R : Q;
  _trail_ATR_mult : Q;
  _margin_buffer : Q;
  _retry_fraction : Q;
  _trail_update_threshold_atr : Q;
  _trail_min_ticks : Z;
  _rvol_threshold : Q;
  _long_only : bool;
  _gap_min_pct : Q;
  _use_options : bool;
  _option_use_debit_spread : bool;
  _option_max_spread_ticks : Z;
  _option_min_oi : Z;
  _option_dte_max : Z;
  _confirm_delay_min : Z;
  _confirm_bars : Z
}.

(** The defaults of [initialize]. *)
Definition default_params : Params := {|
  _stop_loss_atr_distance := 0.5;
  _stop_loss_risk_size := 0.01;
  _max_positions := 8;
  _opening_range_minutes := 5;
  _entry_buffer_atr := 0.10;
  _leverage := 4;
  _atr_price_floor := 0.01;
  _breakeven_trigger_R := 1.0;
  _trail_ATR_mult := 1.5;
  _margin_buffer := 0.90;
  _retry_fraction := 0.50;
  _trail_update_threshold_atr := 0.25;
  _trail_min_ticks := 2;
  _rvol_threshold := 1.8;
  _long_only := true;
  _gap_min_pct := 0.0;
  _use_options := false;
  _option_use_debit_spread := false;
  _option_max_spread_ticks := 10;
  _option_min_oi := 200;
  _option_dte_max := 7;
  _confirm_delay_min := 7;
  _confirm_bars := 1
|}.

(** ** Market data *)

(** One row of a history frame (indexed by symbol, then time). *)
Record Bar := {
  b_sym : Sym; b_time : Time;
  b_open : Q; b_high : Q; b_low : Q; b_close : Q; b_volume : Q
}.

(** The rows of a history frame, in row order. *)
Definition Frame := list Bar.

(** A history frame as pandas holds it: the rows, and the two levels of its
    [(symbol, time)] MultiIndex, the labels the rows are coded against.
    Slicing the rows keeps the levels, so that a level of a slice can list
    labels that none of its rows carries. *)
Record DataFrame := {
  symbol_level : list Sym;
  time_level : list Time;
  df_rows : Frame
}.

Inductive OptionRight := Call | Put.

Definition OptionRight_eqb (a b : OptionRight) : bool :=
  match a, b with Call, Call | Put, Put => true | _, _ => false end.

(** One contract of an option-chain snapshot. *)
Record Contract := {
  c_symbol : Sym;
  c_right : OptionRight;
  c_strike : Q;
  c_expiry : option Time;
  c_bid : Q;
  c_ask : Q;
  c_open_interest : option Z;
  c_last_price : Q
}.

Definition Chain := list Contract.

(** ** Platform calls *)

Inductive PlatformCall :=
| StopMarketOrder (s : Sym) (qty : Z) (stop : Q) (tag : string)
| LimitOrder (s : Sym) (qty : Z) (limit : Q) (tag : string)
| MarketOrder (s : Sym) (qty : Z) (tag : string)
| UpdateStopPrice (id : OrderId) (price : Q)
| UpdateQuantity (id : OrderId) (qty : Z)
| CancelOrder (id : OrderId)
| Liquidate (s : Sym)
| LiquidateAll
| AddSecurity (s : Sym) (lev : Q)
| RemoveSecurity (s : Sym)
| AddOption (s : Sym).

(** The platform, as far as the strategy consumes it.  [W] is the platform's
    own state (portfolio, order book, indicators, clock-independent data). *)
Class Platform (W : Type) := {
  total_portfolio_value : W -> Q;
  margin_remaining : W -> Q;
  invested : W -> Sym -> bool;
  quantity : W -> Sym -> Z;
  calculate_order_quantity : W -> Sym -> Q -> Q;
  security_leverage : W -> Sym -> Q;
  price_of : W -> Sym -> Q;
  close_of : W -> Sym -> Q;
  atr_is_ready : W -> Sym -> bool;
  atr_current_value : W -> Sym -> Q;
  minimum_price_variation : W -> Sym -> option Q;
  order_status : W -> OrderId -> OrderStatus;
  history_minute : W -> list Sym -> Z -> DataFrame;
  (** the daily history request; [None] when it raises *)
  history_daily : W -> list Sym -> Z -> option DataFrame;
  option_chain : W -> Sym -> option Chain;
  get_next_market_open : Time -> Time;
  universe_selected : W -> list Sym;
  is_warming_up : W -> bool;
  (** whether a call raises; consulted only where the source catches *)
  raises : W -> PlatformCall -> bool;
  (** the effect of a call, and the id of the order it creates *)
  perform : W -> PlatformCall -> W * OrderId
}.

(** ** Strategy state

    The source keeps its per-symbol state as ad-hoc attributes of the
    platform's security objects.  [Lifecycle] holds the attributes that
    [_reset_tickets] resets, [OptionState] the options-mode attributes set in
    [on_securities_changed], [VolumeState] the relative-volume baseline. *)

Record Lifecycle := {
  entry_ticket : option Ticket;
  stop_loss_ticket : option Ticket;
  tp_ticket : option Ticket;
  entry_price : option Q;
  initial_stop : option Q;
  current_stop : option Q;
  oneR : option Q;
  moved_to_breakeven : bool;
  entry_time : option Time;
  half_qty : Z;
  high_water : option Q;
  low_water : option Q;
  last_stop_update_time : option Time
}.

Record OptionState := {
  pending_dir : Z;
  pending_entry : option Q;
  pending_stop : option Q;
  confirm_count : Z;
  confirm_ready_time : option Time;
  option_long : option Sym;
  option_short : option Sym;
  option_qty : Z
}.

(** The manually updated [SimpleMovingAverage(period)] of first-minutes
    volume: its window, newest sample first. *)
Record SMA := { sma_period : nat; sma_samples : list Q }.

Definition sma_is_ready (m : SMA) : bool :=
  (sma_period m <=? List.length (sma_samples m))%nat.

Definition sma_current_value (m : SMA) : Q :=
  let win := firstn (sma_period m) (sma_samples m) in
  fold_right Qplus 0 win / inject_Z (Z.of_nat (List.length win)).

Definition sma_update (m : SMA) (x : Q) : SMA :=
  {| sma_period := sma_period m;
     sma_samples := firstn (sma_period m) (x :: sma_samples m) |}.

Record VolumeState := {
  volume_sma : option SMA;
  relative_volume : option Q
}.

Record Security := {
  symbol : Sym;
  life : Lifecycle;
  opt : OptionState;
  vol : VolumeState
}.

Definition with_life (e : Security) (l : Lifecycle) : Security :=
  {| symbol := symbol e; life := l; opt := opt e; vol := vol e |}.

Definition with_opt (e : Security) (o : OptionState) : Security :=
  {| symbol := symbol e; life := life e; opt := o; vol := vol e |}.

Definition with_vol (e : Security) (v : VolumeState) : Security :=
  {| symbol := symbol e; life := life e; opt := opt e; vol := v |}.

(** [_reset_tickets]: every lifecycle attribute back to idle. *)
Definition idle : Lifecycle := {|
  entry_ticket := None; stop_loss_ticket := None; tp_ticket := None;
  entry_price := None; initial_stop := None; current_stop := None;
  oneR := None; moved_to_breakeven := false; entry_time := None;
  half_qty := 0; high_water := None; low_water := None;
  last_stop_update_time := None
|}.

Definition _reset_tickets (sec : Security) : Security := with_life sec idle.

(** The three attributes every stop move writes together:
    [current_stop], [moved_to_breakeven], [last_stop_update_time]. *)
Definition set_stop (l : Lifecycle) (stop : Q) (be : bool) (now : Time)
  : Lifecycle := {|
  entry_ticket := entry_ticket l; stop_loss_ticket := stop_loss_ticket l;
  tp_ticket := tp_ticket l; entry_price := entry_price l;
  initial_stop := initial_stop l; current_stop := Some stop;
  oneR := oneR l; moved_to_breakeven := be; entry_time := entry_time l;
  half_qty := half_qty l; high_water := high_water l;
  low_water := low_water l; last_stop_update_time := Some now
|}.

Definition set_water (l : Lifecycle) (hw lw : Q) : Lifecycle := {|
  entry_ticket := entry_ticket l; stop_loss_ticket := stop_loss_ticket l;
  tp_ticket := tp_ticket l; entry_price := entry_price l;
  initial_stop := initial_stop l; current_stop := current_stop l;
  oneR := oneR l; moved_to_breakeven := moved_to_breakeven l;
  entry_time := entry_time l; half_qty := half_qty l;
  high_water := Some hw; low_water := Some lw;
  last_stop_update_time := last_stop_update_time l
|}.

Definition set_initial_stop (l : Lifecycle) (s : Q) : Lifecycle := {|
  entry_ticket := entry_ticket l; stop_loss_ticket := stop_loss_ticket l;
  tp_ticket := tp_ticket l; entry_price := entry_price l;
  initial_stop := Some s; current_stop := current_stop l;
  oneR := oneR l; moved_to_breakeven := moved_to_breakeven l;
  entry_time := entry_time l; half_qty := half_qty l;
  high_water := high_water l; low_water := low_water l;
  last_stop_update_time := last_stop_update_time l
|}.

Definition set_entry_ticket (l : Lifecycle) (t : Ticket) : Lifecycle := {|
  entry_ticket := Some t; stop_loss_ticket := stop_loss_ticket l;
  tp_ticket := tp_ticket l; entry_price := entry_price l;
  initial_stop := initial_stop l; current_stop := current_stop l;
  oneR := oneR l; moved_to_breakeven := moved_to_breakeven l;
  entry_time := entry_time l; half_qty := half_qty l;
  high_water := high_water l; low_water := low_water l;
  last_stop_update_time := last_stop_update_time l
|}.

(** The whole algorithm object: the security store (the objects are shared
    between [securities] and [_selected], so [_selected] holds references,
    here symbols), the selection list and the option subscriptions. *)
Record Algo := {
  securities : Sym -> Security;
  _selected : list Sym;
  _option_handles : list Sym
}.

Definition store (a : Algo) (s : Sym) (e : Security) : Algo := {|
  securities := fun k => if Nat.eqb k s then e else securities a k;
  _selected := _selected a;
  _option_handles := _option_handles a
|}.

Record OrderEvent := {
  ev_status : OrderStatus;
  ev_symbol : Sym;
  ev_order_id : OrderId;
  ev_fill_price : Q
}.

(** [ticket and order_id == ticket.order_id]. *)
Definition ticket_matches (t : option Ticket) (id : OrderId) : bool :=
  match t with Some t => Nat.eqb id (order_id t) | None => false end.

(** How a handler that may raise ends: normally, or by an exception that
    leaves the mutations made so far in place. *)
Inductive Outcome (S : Type) := Done (s : S) | Raised (s : S).
Arguments Done {S} s.
Arguments Raised {S} s.

Definition outcome_state {S} (o : Outcome S) : S :=
  match o with Done s | Raised s => s end.

Definition raised {S} (o : Outcome S) : bool :=
  match o with Done _ => false | Raised _ => true end.

(** ** The handler monad *)

Section Engine.

Context {W : Type} {PF : Platform W}.

Definition M (A : Type) : Type := W -> A * W * list PlatformCall.

Definition ret {A} (a : A) : M A := fun w => (a, w, []).

Definition bind {A B} (m : M A) (f : A -> M B) : M B :=
  fun w =>
    let '(a, w1, l1) := m w in
    let '(b, w2, l2) := f a w1 in
    (b, w2, l1 ++ l2).

(** Read an attribute of the platform. *)
Definition read {A} (f : W -> A) : M A := fun w => (f w, w, []).

(** Perform a platform call and log it. *)
Definition call (c : PlatformCall) : M OrderId :=
  fun w => let (w', id) := perform w c in (id, w', [c]).

Notation "x <- m ;; k" := (bind m (fun x => k))
  (at level 61, m at next level, right associativity).
Notation "m ;;; k" := (bind m (fun _ => k))
  (at level 61, right associativity).

(** [for x in xs: body(x)], threading the algorithm object. *)
Fixpoint for_each {A S} (body : A -> S -> M S) (xs : list A) (s : S) : M S :=
  match xs with
  | [] => ret s
  | x :: t => s' <- body x s ;; for_each body t s'
  end.

(** ** Order events (both files, [on_order_event]) *)

Definition on_order_event_entry (p : Params) (now : Time) (ev : OrderEvent)
    (sec : Security) (et : Ticket) : M Security :=
  let L := life sec in
  let ep := ev_fill_price ev in
  atr <- read (fun w => atr_current_value w (symbol sec)) ;;
  let istop :=
    match initial_stop L with
    | Some s => s
    | None =>
        let direction := sign_of (ticket_quantity et) in
        ep - inject_Z direction * _stop_loss_atr_distance p * atr
    end in
  let r := Qabs (ep - istop) in
  sid <- call (StopMarketOrder (ev_symbol ev) (- ticket_quantity et) istop
                 "ATR Stop") ;;
  let st := {| order_id := sid; ticket_quantity := (- ticket_quantity et)%Z |} in
  let abs_qty := Z.abs (ticket_quantity et) in
  let half := (abs_qty / 2)%Z in
  if (1 <=? half)%Z then
    let tp_qty := if (0 <? ticket_quantity et)%Z then (- half)%Z else half in
    let tp_price := if (0 <? ticket_quantity et)%Z then ep + r else ep - r in
    tid <- call (LimitOrder (ev_symbol ev) tp_qty tp_price "TakeProfit_1R") ;;
    ret (with_life sec {|
      entry_ticket := entry_ticket L; stop_loss_ticket := Some st;
      tp_ticket := Some {| order_id := tid; ticket_quantity := tp_qty |};
      entry_price := Some ep; initial_stop := Some istop;
      current_stop := Some istop; oneR := Some r;
      moved_to_breakeven := false; entry_time := Some now;
      half_qty := half; high_water := Some ep; low_water := Some ep;
      last_stop_update_time := last_stop_update_time L |})
  else
    ret (with_life sec {|
      entry_ticket := entry_ticket L; stop_loss_ticket := Some st;
      tp_ticket := tp_ticket L;
      entry_price := Some ep; initial_stop := Some istop;
      current_stop := Some istop; oneR := Some r;
      moved_to_breakeven := false; entry_time := Some now;
      half_qty := half_qty L; high_water := Some ep; low_water := Some ep;
      last_stop_update_time := last_stop_update_time L |}).

Definition on_order_event_stop (sec : Security) : M Security :=
  match tp_ticket (life sec) with
  | Some tp =>
      st <- read (fun w => order_status w (order_id tp)) ;;
      if negb (OrderStatus_eqb st Canceled || OrderStatus_eqb st Filled)
      then call (CancelOrder (order_id tp)) ;;; ret (_reset_tickets sec)
      else ret (_reset_tickets sec)
  | None => ret (_reset_tickets sec)
  end.

Definition on_order_event_tp (now : Time) (ev : OrderEvent) (sec : Security)
  : M Security :=
  let L := life sec in
  remaining <- read (fun w => quantity w (ev_symbol ev)) ;;
  inv <- read (fun w => invested w (ev_symbol ev)) ;;
  match stop_loss_ticket L with
  | Some st =>
      (if inv then call (UpdateQuantity (order_id st) (- remaining)) ;;; ret tt
       else ret tt) ;;;
      match entry_price L with
      | Some ep =>
          call (UpdateStopPrice (order_id st) ep) ;;;
          ret (with_life sec (set_stop L ep true now))
      | None => ret sec
      end
  | None => ret sec
  end.

Definition on_order_event_sec (p : Params) (now : Time) (ev : OrderEvent)
    (sec : Security) : M Security :=
  if negb (OrderStatus_eqb (ev_status ev) Filled) then ret sec
  else
    let id := ev_order_id ev in
    if ticket_matches (entry_ticket (life sec)) id then
      match entry_ticket (life sec) with
      | Some et => on_order_event_entry p now ev sec et
      | None => ret sec
      end
    else if ticket_matches (stop_loss_ticket (life sec)) id
    then on_order_event_stop sec
    else if ticket_matches (tp_ticket (life sec)) id
    then on_order_event_tp now ev sec
    else ret sec.

Definition on_order_event (p : Params) (now : Time) (ev : OrderEvent)
    (a : Algo) : M Algo :=
  sec <- on_order_event_sec p now ev (securities a (ev_symbol ev)) ;;
  ret (store a (ev_symbol ev) sec).

(** ** The throttle ([_should_move_stop]) *)

(** [getattr(sp, "minimum_price_variation", None) or 0.01], then the
    non-positive guard. *)
Definition tick_of (w : W) (s : Sym) : Q :=
  let tick := match minimum_price_variation w s with
              | Some t => if Qeq_bool t 0 then 0.01 else t
              | None => 0.01
              end in
  if Qle_bool tick 0 then 0.01 else tick.

(** The displacement a stop change has to reach. *)
Definition throttle_threshold (p : Params) (w : W) (s : Sym) : Q :=
  Qmax (inject_Z (_trail_min_ticks p) * tick_of w s)
       (_trail_update_threshold_atr p * atr_current_value w s).

(** [getattr(sec, "last_stop_update_time", None) == self.time]. *)
Definition updated_at (l : Lifecycle) (now : Time) : bool :=
  match last_stop_update_time l with
  | Some t => Z.eqb t now
  | None => false
  end.

Definition _should_move_stop (p : Params) (now : Time) (w : W)
    (sec : Security) (new_price : option Q) : bool :=
  match new_price with
  | None => false
  | Some np =>
    match current_stop (life sec) with
    | None => true
    | Some cs =>
        if updated_at (life sec) now then false
        else if negb (atr_is_ready w (symbol sec)) then false
        else if Qle_bool (atr_current_value w (symbol sec)) 0 then false
        else if Qlt_bool (Qabs (np - cs))
                         (throttle_threshold p w (symbol sec))
        then false
        else true
    end
  end.

(** ** Per-bar maintenance, equity mode ([on_data]) *)

(** High and low water marks: a long only raises its high, a short only
    lowers its low; an unset mark starts at the current price. *)
Definition track_water (direction : Z) (price : Q) (l : Lifecycle)
  : Q * Q :=
  let hw0 := match high_water l with Some h => h | None => price end in
  let lw0 := match low_water l with Some x => x | None => price end in
  (if (0 <? direction)%Z then Qmax hw0 price else hw0,
   if (direction <? 0)%Z then Qmin lw0 price else lw0).

(** 1) Breakeven when +R is achieved (if not already), through the throttle. *)
Definition breakeven_step (p : Params) (now : Time) (direction : Z)
    (price ep r : Q) (st : Ticket) (e : Security) : M Security :=
  let move := inject_Z direction * (price - ep) in
  if negb (moved_to_breakeven (life e))
     && Qle_bool (_breakeven_trigger_R p * r) move
  then
    ok <- read (fun w => _should_move_stop p now w e (Some ep)) ;;
    if ok then
      call (UpdateStopPrice (order_id st) ep) ;;;
      ret (with_life e (set_stop (life e) ep true now))
    else ret e
  else ret e.

(** The trailing candidate: [max(entry, high_water - mult*atr)] for a long,
    [min(entry, low_water + mult*atr)] for a short. *)
Definition trail_candidate (p : Params) (direction : Z) (ep hw lw atr : Q)
  : Q :=
  if (0 <? direction)%Z then Qmax ep (hw - _trail_ATR_mult p * atr)
  else Qmin ep (lw + _trail_ATR_mult p * atr).

(** [current_stop is None or candidate beyond current_stop]. *)
Definition more_favorable (direction : Z) (cand : Q) (l : Lifecycle) : bool :=
  match current_stop l with
  | None => true
  | Some cs => if (0 <? direction)%Z then Qlt_bool cs cand
               else Qlt_bool cand cs
  end.

(** 2) ATR trailing after breakeven, through the throttle. *)
Definition trail_step (p : Params) (now : Time) (direction : Z)
    (ep hw lw : Q) (st : Ticket) (e : Security) : M Security :=
  ready <- read (fun w => atr_is_ready w (symbol e)) ;;
  if moved_to_breakeven (life e) && ready then
    atr <- read (fun w => atr_current_value w (symbol e)) ;;
    let cand := trail_candidate p direction ep hw lw atr in
    if more_favorable direction cand (life e) then
      ok <- read (fun w => _should_move_stop p now w e (Some cand)) ;;
      if ok then
        call (UpdateStopPrice (order_id st) cand) ;;;
        ret (with_life e
               (set_stop (life e) cand (moved_to_breakeven (life e)) now))
      else ret e
    else ret e
  else ret e.

(** The body of the loop over [_selected] for one security. *)
Definition on_data_equity_sec (p : Params) (now : Time) (e : Security)
  : M Security :=
  inv <- read (fun w => invested w (symbol e)) ;;
  if negb inv then ret e
  else
    match entry_ticket (life e), stop_loss_ticket (life e),
          oneR (life e), entry_price (life e) with
    | Some _, Some st, Some r, Some ep =>
        if Qeq_bool r 0 then ret e
        else
          price <- read (fun w => price_of w (symbol e)) ;;
          qty <- read (fun w => quantity w (symbol e)) ;;
          if (qty =? 0)%Z then ret e
          else
            let direction := sign_of qty in
            let '(hw, lw) := track_water direction price (life e) in
            let e1 := with_life e (set_water (life e) hw lw) in
            e2 <- breakeven_step p now direction price ep r st e1 ;;
            trail_step p now direction ep hw lw st e2
    | _, _, _, _ => ret e
    end.

(** One turn of a loop over [_selected]: run the body on the security the
    reference points to; its mutations land in the store. *)
Definition visit (body : Security -> M Security) (s : Sym) (a : Algo)
  : M Algo :=
  e' <- body (securities a s) ;;
  ret (store a s e').

(** Run a per-security body on every member of a snapshot of [_selected]. *)
Definition over_selected (body : Security -> M Security) (a : Algo) : M Algo :=
  for_each (visit body) (_selected a) a.

Definition on_data_equity (p : Params) (now : Time) (a : Algo) : M Algo :=
  over_selected (on_data_equity_sec p now) a.

(** ** Option legs *)

(** [leg and self.portfolio[leg].invested]. *)
Definition leg_invested (w : W) (leg : option Sym) : bool :=
  match leg with Some s => invested w s | None => false end.

Definition has_pos (w : W) (e : Security) : bool :=
  leg_invested w (option_long (opt e)) || leg_invested w (option_short (opt e)).

(** Close one leg at market if it is invested with a non-zero quantity. *)
Definition close_leg (leg : option Sym) : M unit :=
  match leg with
  | Some s =>
      inv <- read (fun w => invested w s) ;;
      if inv then
        q <- read (fun w => quantity w s) ;;
        if negb (q =? 0)%Z
        then call (MarketOrder s (- q) "Exit_BY_UNDERLYING_STOP") ;;; ret tt
        else ret tt
      else ret tt
  | None => ret tt
  end.

Definition clear_legs (o : OptionState) : OptionState := {|
  pending_dir := pending_dir o; pending_entry := pending_entry o;
  pending_stop := pending_stop o; confirm_count := confirm_count o;
  confirm_ready_time := confirm_ready_time o;
  option_long := None; option_short := None; option_qty := 0
|}.

Definition _close_option_position (sec : Security) : M Security :=
  close_leg (option_long (opt sec)) ;;;
  close_leg (option_short (opt sec)) ;;;
  ret (with_opt sec (clear_legs (opt sec))).

(** ** Session boundary ([_time_stop_exit], [_exit]) *)

(** [entry_time is None or entry_time.date() != self.time.date()]. *)
Definition entered_today (now : Time) (l : Lifecycle) : bool :=
  match entry_time l with
  | Some t => (date t =? date now)%Z
  | None => false
  end.

Definition time_stop_sec (p : Params) (now : Time) (e : Security)
  : M Security :=
  if negb (_use_options p) then
    inv <- read (fun w => invested w (symbol e)) ;;
    if negb inv then ret e
    else if negb (entered_today now (life e)) then ret e
    else if negb (moved_to_breakeven (life e))
    then call (Liquidate (symbol e)) ;;; ret e
    else ret e
  else
    hp <- read (fun w => has_pos w e) ;;
    if negb hp then ret e
    else if negb (entered_today now (life e)) then ret e
    else if negb (moved_to_breakeven (life e))
    then _close_option_position e
    else ret e.

Definition _time_stop_exit (p : Params) (now : Time) (a : Algo) : M Algo :=
  over_selected (time_stop_sec p now) a.

(** End of day: close one leg at market with the [EOD] tag. *)
Definition eod_leg (leg : option Sym) : M unit :=
  match leg with
  | Some s =>
      inv <- read (fun w => invested w s) ;;
      if inv then
        q <- read (fun w => quantity w s) ;;
        call (MarketOrder s (- q) "EOD") ;;; ret tt
      else ret tt
  | None => ret tt
  end.

Definition _exit (p : Params) (a : Algo) : M Algo :=
  (if negb (_use_options p) then call LiquidateAll ;;; ret a
   else for_each (fun s a =>
                    eod_leg (option_long (opt (securities a s))) ;;;
                    eod_leg (option_short (opt (securities a s))) ;;;
                    ret a)
                 (_selected a) a) ;;;
  a' <- for_each (fun s a =>
                    call (RemoveSecurity s) ;;;
                    ret (store a s (_reset_tickets (securities a s))))
                 (_selected a) a ;;
  ret {| securities := securities a'; _selected := [];
         _option_handles := _option_handles a' |}.

(** ** History frames (the pandas operations the scan uses) *)

(** [df.empty]. *)
Definition df_empty (f : DataFrame) : bool :=
  match df_rows f with [] => true | _ => false end.

(** [df.tail(n)]: the last [n] rows of the whole frame ([iloc[-n:]], and
    nothing for [n = 0]).  The levels of the index are kept. *)
Definition tail (n : Z) (f : DataFrame) : DataFrame := {|
  symbol_level := symbol_level f;
  time_level := time_level f;
  df_rows := if (n =? 0)%Z then [] else py_slice_from (- n) (df_rows f)
|}.

(** The distinct labels of a list, in order of first appearance. *)
Definition first_seen {A} (eqb : A -> A -> bool) (l : list A) : list A :=
  fold_left (fun acc x => if existsb (eqb x) acc then acc else acc ++ [x]) l [].

(** [MultiIndex.remove_unused_levels], for one level: a level whose labels
    are all in use stays as it is; otherwise it becomes the labels in use, in
    the order in which the rows first show them. *)
Definition remove_unused_levels {A} (eqb : A -> A -> bool)
    (level labels : list A) : list A :=
  let used := first_seen eqb labels in
  if (List.length used =? List.length level)%nat then level else used.

(** [df.<field>.unstack(0)] drops the unused labels and turns the symbols
    into columns; the times are the index.  Both follow the order of the
    levels that [remove_unused_levels] leaves. *)
Definition columns (f : DataFrame) : list Sym :=
  remove_unused_levels Nat.eqb (symbol_level f) (map b_sym (df_rows f)).

Definition index (f : DataFrame) : list Time :=
  remove_unused_levels Z.eqb (time_level f) (map b_time (df_rows f)).

(** [unstack] raises [ValueError] when two rows carry the same labels. *)
Fixpoint has_duplicates (rows : Frame) : bool :=
  match rows with
  | [] => false
  | b :: t =>
      existsb (fun c => (b_sym c =? b_sym b)%nat && (b_time c =? b_time b)%Z) t
      || has_duplicates t
  end.

Definition rows_of (f : DataFrame) (s : Sym) : list Bar :=
  filter (fun b => (b_sym b =? s)%nat) (df_rows f).

(** The cell of a symbol at a time label; [None] is pandas' NaN. *)
Definition cell (field : Bar -> Q) (f : DataFrame) (s : Sym) (t : Time)
  : option Q :=
  option_map field
    (find (fun b => (b_sym b =? s)%nat && (b_time b =? t)%Z) (df_rows f)).

(** A Series indexed by symbol, such as one row of an unstacked frame; a
    [None] value is NaN. *)
Definition Series := list (Sym * option Q).

(** [series.loc[sym]]; [None] is [KeyError]. *)
Definition loc (sr : Series) (s : Sym) : option (option Q) :=
  option_map snd (find (fun kv => (fst kv =? s)%nat) sr).

(** [df.<field>.unstack(0).iloc[i]]: the row at the [i]-th label of the
    index; [None] is [IndexError]. *)
Definition row_at (field : Bar -> Q) (f : DataFrame) (t : Time) : Series :=
  map (fun s => (s, cell field f s t)) (columns f).

Definition iloc (field : Bar -> Q) (f : DataFrame) (i : Z) : option Series :=
  option_map (row_at field f) (py_index i (index f)).

(** [vol_df.sum()]. *)
Definition volume_sum (f : DataFrame) (s : Sym) : Q :=
  fold_right Qplus 0 (map b_volume (rows_of f s)).

(** [open_df.iloc[0]], [close_df.iloc[-1]]: the rows at the first and at the
    last label of the index, which after a [tail] need not be the earliest
    and the latest minute. *)
Definition open_by_symbol (f : DataFrame) : option Series := iloc b_open f 0.

Definition close_by_symbol (f : DataFrame) : option Series :=
  iloc b_close f (-1).

(** [high_df.max()], [low_df.min()] (NaN cells skipped). *)
Definition high_by_symbol (f : DataFrame) (s : Sym) : Q :=
  match map b_high (rows_of f s) with
  | [] => 0
  | h :: t => fold_left Qmax t h
  end.

Definition low_by_symbol (f : DataFrame) (s : Sym) : Q :=
  match map b_low (rows_of f s) with
  | [] => 0
  | h :: t => fold_left Qmin t h
  end.

(** [close_by_symbol > open_by_symbol], [close_by_symbol < open_by_symbol]
    at one symbol: a comparison with NaN is false. *)
Definition closed_up (open_s close_s : Series) (s : Sym) : bool :=
  match loc close_s s, loc open_s s with
  | Some (Some c), Some (Some o) => Qlt_bool o c
  | _, _ => false
  end.

Definition closed_down (open_s close_s : Series) (s : Sym) : bool :=
  match loc close_s s, loc open_s s with
  | Some (Some c), Some (Some o) => Qlt_bool c o
  | _, _ => false
  end.

(** [d_hist.close.unstack(0).iloc[-2]] under the scan's [try]: no previous
    closes when the request raises, the frame is empty, [unstack] raises or
    the frame has fewer than two dates. *)
Definition prev_close_by_symbol (d_hist : option DataFrame) : option Series :=
  match d_hist with
  | Some d =>
      if df_empty d then None
      else if has_duplicates (df_rows d) then None
      else iloc b_close d (-2)
  | None => None
  end.

(** ** The scan ([_scan_for_entries]) *)

Fixpoint for_each_exc {A S} (body : A -> S -> M (Outcome S)) (xs : list A)
    (s : S) : M (Outcome S) :=
  match xs with
  | [] => ret (Done s)
  | x :: t =>
      r <- body x s ;;
      match r with
      | Done s' => for_each_exc body t s'
      | Raised s' => ret (Raised s')
      end
  end.

(** The relative-volume update of one security. *)
Definition update_rvol (first5_vol : Q) (e : Security) : Outcome Security :=
  match volume_sma (vol e) with
  | Some m =>
      if sma_is_ready m then
        match pydiv first5_vol (sma_current_value m) with
        | Some rv =>
            Done (with_vol e {| volume_sma := Some (sma_update m first5_vol);
                                relative_volume := Some rv |})
        | None => Raised e
        end
      else
        Done (with_vol e {| volume_sma := Some (sma_update m first5_vol);
                            relative_volume := None |})
  | None =>
      Done (with_vol e {| volume_sma := None; relative_volume := None |})
  end.

(** [relative_volume is not None and relative_volume > threshold]. *)
Definition in_play (p : Params) (e : Security) : bool :=
  match relative_volume (vol e) with
  | Some rv => Qlt_bool (_rvol_threshold p) rv
  | None => false
  end.

Definition rvol_key (e : Security) : Q :=
  match relative_volume (vol e) with Some rv => rv | None => 0 end.

(** [sorted(equities, key=relative_volume)[-max_positions:]]. *)
Definition top_by_rvol (p : Params) (a : Algo) (equities : list Sym)
  : list Sym :=
  py_slice_from (- _max_positions p)
    (sorted_by (fun s => rvol_key (securities a s)) equities).

(** [gap_passes].  A symbol missing from either series raises [KeyError],
    which the [try] turns into a pass; a NaN previous close or open makes
    both comparisons false, so the symbol is rejected. *)
Definition gap_passes (p : Params) (prev_close : option Series)
    (open_s : Series) (sym : Sym) : bool :=
  if Qle_bool (_gap_min_pct p) 0 then true
  else
    match prev_close with
    | None => true
    | Some prev_s =>
        match loc prev_s sym with
        | None => true
        | Some prev_c =>
            match loc open_s sym with
            | None => true
            | Some today_o =>
                match prev_c with
                | Some pc =>
                    if Qle_bool pc 0 then true
                    else
                      match today_o with
                      | Some o =>
                          Qle_bool (_gap_min_pct p)
                                   (Qabs (o - pc) / pc * 100.0)
                      | None => false
                      end
                | None => false
                end
            end
        end
    end.

(** A desired order: the dict appended to [orders]. *)
Record Order := {
  o_equity : Sym;
  o_entry_price : Q;
  o_stop_price : Q;
  o_dir : Z
}.

(** The per-symbol guards shared by the long and the short loop. *)
Definition tradable (p : Params) (w : W) (gap : Sym -> bool) (sym : Sym)
  : bool :=
  if negb (atr_is_ready w sym) then false
  else if Qle_bool (price_of w sym) 0
          || Qlt_bool (atr_current_value w sym / price_of w sym)
                      (_atr_price_floor p)
  then false
  else gap sym.

Definition long_order (p : Params) (w : W) (f : DataFrame) (sym : Sym)
  : Order :=
  let entry := high_by_symbol f sym
               + _entry_buffer_atr p * atr_current_value w sym in
  let stop := entry - _stop_loss_atr_distance p * atr_current_value w sym in
  {| o_equity := sym; o_entry_price := entry; o_stop_price := stop;
     o_dir := 1 |}.

Definition short_order (p : Params) (w : W) (f : DataFrame) (sym : Sym)
  : Order :=
  let entry := low_by_symbol f sym
               - _entry_buffer_atr p * atr_current_value w sym in
  let stop := entry + _stop_loss_atr_distance p * atr_current_value w sym in
  {| o_equity := sym; o_entry_price := entry; o_stop_price := stop;
     o_dir := (-1) |}.

(** The [orders] list: longs over the index of
    [close_by_symbol[close_by_symbol > open_by_symbol]], then, unless
    long-only, shorts over the symbols that closed down. *)
Definition build_orders (p : Params) (w : W) (gap : Sym -> bool)
    (f : DataFrame) (open_s close_s : Series) : list Order :=
  map (long_order p w f)
      (filter (tradable p w gap)
              (filter (closed_up open_s close_s) (map fst close_s)))
  ++ (if negb (_long_only p) then
        map (short_order p w f)
            (filter (tradable p w gap)
                    (filter (closed_down open_s close_s) (map fst close_s)))
      else []).

(** *** Sizing *)

(** [risk_per_pos = (risk_size * total_portfolio_value) / max_positions]. *)
Definition risk_per_pos (p : Params) (tpv : Q) : option Q :=
  pydiv (_stop_loss_risk_size p * tpv) (inject_Z (_max_positions p)).

(** [denom = max(abs(entry - stop), 1e-6)]. *)
Definition denom (o : Order) : Q :=
  Qmax (Qabs (o_entry_price o - o_stop_price o)) 1e-6.

(** [risk_qty = int(risk_per_pos / denom) * sign], for a finite
    [risk_per_pos]: the division raises on a zero divisor, and [int] raises
    when the quotient is beyond the floats. *)
Definition risk_qty (rpp : Q) (o : Order) : option Z :=
  match pydiv rpp (denom o) with
  | Some q =>
      match py_int q with
      | Some n => Some (n * sign_of (o_dir o))%Z
      | None => None
      end
  | None => None
  end.

(** [int(min(abs(q), cap)) * (1 if q > 0 else -1)]. *)
Definition cap_qty (q cap : Z) : Z := (Z.min (Z.abs q) cap * sign_of q)%Z.

(** [per_order_margin = (free_margin * margin_buffer) / max(1, remaining)],
    with [remaining = total_orders - (i - 1)]. *)
Definition per_order_margin (p : Params) (free_margin : Q) (total i : Z) : Q :=
  let remaining_orders := (total - (i - 1))%Z in
  free_margin * _margin_buffer p / inject_Z (Z.max 1 remaining_orders).

(** [float(Leverage or 1.0)]. *)
Definition lev_or_one (l : Q) : Q := if Qeq_bool l 0 then 1.0 else l.

(** [int(max(0, (per_order_margin * lev) / max(price, 1e-6)))]. *)
Definition max_qty_by_margin (pom lev price : Q) : Z :=
  int_trunc (Qmax 0 (pom * lev / Qmax price 1e-6)).

(** The quantity of the [i]-th order of [total], from the platform figures
    read in state [w]; [None] when a division raises. *)
Definition sized_qty (p : Params) (w : W) (total i : Z) (o : Order)
  : option Z :=
  match risk_per_pos p (total_portfolio_value w) with
  | None => None
  | Some rpp =>
    match risk_qty rpp o with
    | None => None
    | Some rq =>
      match pydiv 1 (inject_Z (_max_positions p)) with
      | None => None
      | Some alloc_cap =>
          let limit_qty :=
            Z.abs (int_trunc (calculate_order_quantity w (o_equity o) alloc_cap)) in
          let qty := cap_qty rq limit_qty in
          let free_margin := margin_remaining w in
          let pom := per_order_margin p free_margin total i in
          let lev := lev_or_one (security_leverage w (o_equity o)) in
          Some (cap_qty qty (max_qty_by_margin pom lev (o_entry_price o)))
      end
    end
  end.

(** *** Placing one order (the body of the loop over [orders]) *)

Definition select (a : Algo) (s : Sym) : Algo :=
  if existsb (Nat.eqb s) (_selected a) then a
  else {| securities := securities a; _selected := _selected a ++ [s];
          _option_handles := _option_handles a |}.

Definition on_life (f : Lifecycle -> Lifecycle) (a : Algo) (s : Sym) : Algo :=
  store a s (with_life (securities a s) (f (life (securities a s)))).

(** Equity mode: size, then submit with one retry at a smaller size. *)
Definition place_equity (p : Params) (total i : Z) (o : Order) (a : Algo)
  : M (Outcome Algo) :=
  let s := o_equity o in
  let a := store a s (_reset_tickets (securities a s)) in
  call (AddSecurity s (_leverage p)) ;;;
  sized <- read (fun w => sized_qty p w total i o) ;;
  match sized with
  | None => ret (Raised a)
  | Some qty =>
      if (qty =? 0)%Z then ret (Done a)
      else
        let a := on_life (fun l => set_initial_stop l (o_stop_price o)) a s in
        let first := StopMarketOrder s qty (o_entry_price o) "Entry" in
        rejected <- read (fun w => raises w first) ;;
        if negb rejected then
          id <- call first ;;
          ret (Done (on_life (fun l => set_entry_ticket l
                       {| order_id := id; ticket_quantity := qty |}) a s))
        else
          let smaller :=
            (int_trunc (inject_Z (Z.abs qty) * _retry_fraction p)
             * sign_of qty)%Z in
          if negb (smaller =? 0)%Z then
            id <- call (StopMarketOrder s smaller (o_entry_price o)
                          "Entry_Retry50") ;;
            ret (Done (on_life (fun l => set_entry_ticket l
                         {| order_id := id; ticket_quantity := smaller |}) a s))
          else ret (Done (store a s (_reset_tickets (securities a s))))
  end.

(** [_ensure_option_chain]. *)
Definition _ensure_option_chain (a : Algo) (s : Sym) : M Algo :=
  if existsb (Nat.eqb s) (_option_handles a) then ret a
  else
    call (AddOption s) ;;;
    ret {| securities := securities a; _selected := _selected a;
           _option_handles := s :: _option_handles a |}.

(** Options mode: arm the pending confirmation. *)
Definition arm_pending (p : Params) (now : Time) (o : Order)
    (os : OptionState) : OptionState :=
  let market_open := get_next_market_open now in
  {| pending_dir := o_dir o;
     pending_entry := Some (o_entry_price o);
     pending_stop := Some (o_stop_price o);
     confirm_count := 0;
     confirm_ready_time :=
       Some (add_minutes market_open (_confirm_delay_min p));
     option_long := option_long os; option_short := option_short os;
     option_qty := option_qty os |}.

Definition place_options (p : Params) (now : Time) (o : Order) (a : Algo)
  : M (Outcome Algo) :=
  let s := o_equity o in
  let e := securities a s in
  a' <- _ensure_option_chain
          (store a s (with_opt e (arm_pending p now o (opt e)))) s ;;
  ret (Done a').

Definition place_order (p : Params) (now : Time) (total : Z)
    (io : Z * Order) (a : Algo) : M (Outcome Algo) :=
  let '(i, o) := io in
  let a := select a (o_equity o) in
  if negb (_use_options p) then place_equity p total i o a
  else place_options p now o a.

(** [enumerate(orders, start=1)]. *)
Definition enumerate1 {A} (l : list A) : list (Z * A) :=
  combine (map Z.of_nat (seq 1 (List.length l))) l.

(** The relative-volume pass over the securities with data in the window. *)
Fixpoint rvol_pass (f : DataFrame) (equities : list Sym) (a : Algo)
  : Outcome Algo :=
  match equities with
  | [] => Done a
  | s :: t =>
      match update_rvol (volume_sum f s) (securities a s) with
      | Done e => rvol_pass f t (store a s e)
      | Raised e => Raised (store a s e)
      end
  end.

Definition _scan_for_entries (p : Params) (now : Time) (a : Algo)
  : M (Outcome Algo) :=
  symbols <- read universe_selected ;;
  match symbols with
  | [] => ret (Done a)
  | _ =>
    raw <- read (fun w => history_minute w symbols
                            (_opening_range_minutes p + 1)) ;;
    if df_empty raw then ret (Done a)
    else
      let minute_tail := tail (_opening_range_minutes p) raw in
      if has_duplicates (df_rows minute_tail) then ret (Raised a)
      else if df_empty minute_tail then ret (Done a)
      else
        let equities :=
          filter (fun s => existsb (Nat.eqb s) (columns minute_tail)) symbols in
        match rvol_pass minute_tail equities a with
        | Raised a => ret (Raised a)
        | Done a =>
          warm <- read is_warming_up ;;
          if warm then ret (Done a)
          else
            let equities :=
              filter (fun s => in_play p (securities a s)) equities in
            match equities with
            | [] => ret (Done a)
            | _ =>
              let equities := top_by_rvol p a equities in
              match open_by_symbol minute_tail,
                    close_by_symbol minute_tail with
              | Some open_s, Some close_s =>
                  prev_close <-
                    (if Qlt_bool 0 (_gap_min_pct p)
                     then d_hist <- read (fun w => history_daily w equities 2) ;;
                          ret (prev_close_by_symbol d_hist)
                     else ret None) ;;
                  orders <- read (fun w =>
                    build_orders p w (gap_passes p prev_close open_s)
                                 minute_tail open_s close_s) ;;
                  let total_orders := Z.of_nat (List.length orders) in
                  for_each_exc (place_order p now total_orders)
                               (enumerate1 orders) a
              | _, _ => ret (Raised a)
              end
            end
        end
  end.

(** ** Options overlay ([on_data], options mode, and its helpers) *)

Definition _liquidity_ok (p : Params) (w : W) (c : Contract) : bool :=
  if Qle_bool (c_bid c) 0 || Qle_bool (c_ask c) 0 then false
  else if match c_open_interest c with
          | Some oi => (oi <? _option_min_oi p)%Z
          | None => false
          end
  then false
  else if Qlt_bool (inject_Z (_option_max_spread_ticks p))
                   ((c_ask c - c_bid c) / Qmax (tick_of w (c_symbol c)) 1e-6)
  then false
  else true.

(** Lexicographic [<] on the key [(dte, |strike - spot|)]. *)
Definition key_lt (k1 k2 : Z * Q) : bool :=
  (fst k1 <? fst k2)%Z || ((fst k1 =? fst k2)%Z && Qlt_bool (snd k1) (snd k2)).

Definition pick_step (p : Params) (now : Time) (w : W) (right : OptionRight)
    (spot : Q) (acc : option Contract * (Z * Q)) (c : Contract)
  : option Contract * (Z * Q) :=
  if negb (OptionRight_eqb (c_right c) right) then acc
  else if negb (_liquidity_ok p w c) then acc
  else
    match c_expiry c with
    | None => acc
    | Some expiry =>
        let dte := (date expiry - date now)%Z in
        if (dte <? 0)%Z || (_option_dte_max p <? dte)%Z then acc
        else
          let key := (dte, Qabs (c_strike c - spot)) in
          if key_lt key (snd acc) then (Some c, key) else acc
    end.

Definition _pick_atm_contract (p : Params) (now : Time) (w : W)
    (chain : Chain) (right : OptionRight) (spot : Q) : option Contract :=
  fst (fold_left (pick_step p now w right spot) chain (None, (9999%Z, 9999.0))).

Definition _mid (c : Contract) : Q :=
  if Qlt_bool 0 (c_bid c) && Qlt_bool 0 (c_ask c)
  then (c_bid c + c_ask c) / 2.0
  else c_last_price c.

Definition _option_qty_for_risk (unit_price risk_dollars : Q) (side_sign : Z)
  : Z :=
  if Qle_bool unit_price 0 then 0%Z
  else (int_trunc (Qmax 1 (risk_dollars / (unit_price * 100.0)))
        * sign_of side_sign)%Z.

(** The strikes a wing may have: same right, liquid, strictly beyond the
    at-the-money strike in the direction of profit. *)
Definition wing_ok (p : Params) (w : W) (right : OptionRight) (dir : Z)
    (best_strike : Q) (c : Contract) : bool :=
  OptionRight_eqb (c_right c) right && _liquidity_ok p w c
  && (if (0 <? dir)%Z then Qlt_bool best_strike (c_strike c)
      else Qlt_bool (c_strike c) best_strike).

(** [min(strikes or [None])] for calls, [max(...)] for puts. *)
Definition target_otm (p : Params) (w : W) (chain : Chain)
    (right : OptionRight) (dir : Z) (best_strike : Q) : option Q :=
  match map c_strike (filter (wing_ok p w right dir best_strike) chain) with
  | [] => None
  | h :: t => Some (fold_left (if (0 <? dir)%Z then Qmin else Qmax) t h)
  end.

(** The first contract of the chain at the target strike. *)
Definition find_wing (p : Params) (w : W) (chain : Chain)
    (right : OptionRight) (target : Q) : option Contract :=
  find (fun c => OptionRight_eqb (c_right c) right
                 && Qeq_bool (c_strike c) target
                 && _liquidity_ok p w c) chain.

Definition expiry_eqb (a b : option Time) : bool :=
  match a, b with
  | Some x, Some y => (x =? y)%Z
  | None, None => true
  | _, _ => false
  end.

Inductive Legs :=
| Naked (best : Contract)
| DebitSpread (best otm : Contract).

(** Naked at-the-money leg, or a debit spread when enabled, a wing exists
    and its expiry is the long leg's. *)
Definition choose_legs (p : Params) (w : W) (chain : Chain)
    (right : OptionRight) (dir : Z) (best : Contract) : Legs :=
  if negb (_option_use_debit_spread p) then Naked best
  else
    match target_otm p w chain right dir (c_strike best) with
    | None => Naked best
    | Some target =>
        match find_wing p w chain right target with
        | None => Naked best
        | Some otm =>
            if negb (expiry_eqb (c_expiry otm) (c_expiry best))
            then Naked best
            else DebitSpread best otm
        end
    end.

Definition set_legs (o : OptionState) (long : Sym) (short : option Sym)
    (qty : Z) : OptionState := {|
  pending_dir := pending_dir o; pending_entry := pending_entry o;
  pending_stop := pending_stop o; confirm_count := confirm_count o;
  confirm_ready_time := confirm_ready_time o;
  option_long := Some long; option_short := short; option_qty := qty
|}.

Definition place_legs (legs : Legs) (qty : Z) (e : Security) : M Security :=
  match legs with
  | Naked best =>
      call (MarketOrder (c_symbol best) qty "ORB_ATM_OPTION") ;;;
      ret (with_opt e (set_legs (opt e) (c_symbol best) None qty))
  | DebitSpread best otm =>
      call (MarketOrder (c_symbol best) qty "ORB_DEBIT_LONG") ;;;
      call (MarketOrder (c_symbol otm) (- qty) "ORB_DEBIT_SHORT") ;;;
      ret (with_opt e
             (set_legs (opt e) (c_symbol best) (Some (c_symbol otm)) qty))
  end.

Definition set_confirm_count (o : OptionState) (n : Z) : OptionState := {|
  pending_dir := pending_dir o; pending_entry := pending_entry o;
  pending_stop := pending_stop o; confirm_count := n;
  confirm_ready_time := confirm_ready_time o;
  option_long := option_long o; option_short := option_short o;
  option_qty := option_qty o
|}.

Definition clear_pending (o : OptionState) : OptionState := {|
  pending_dir := 0; pending_entry := None; pending_stop := None;
  confirm_count := 0; confirm_ready_time := confirm_ready_time o;
  option_long := option_long o; option_short := option_short o;
  option_qty := option_qty o
|}.

(** "record entry meta for exit logic": the levels of the underlying. *)
Definition record_entry (now : Time) (price pe : Q) (e : Security)
  : Outcome Security :=
  let L := life e in
  match pending_stop (opt e) with
  | None =>
      Raised (with_life e {|
        entry_ticket := entry_ticket L; stop_loss_ticket := stop_loss_ticket L;
        tp_ticket := tp_ticket L; entry_price := Some price;
        initial_stop := initial_stop L; current_stop := current_stop L;
        oneR := oneR L; moved_to_breakeven := moved_to_breakeven L;
        entry_time := entry_time L; half_qty := half_qty L;
        high_water := high_water L; low_water := low_water L;
        last_stop_update_time := last_stop_update_time L |})
  | Some ps =>
      Done (with_opt
        (with_life e {|
           entry_ticket := entry_ticket L;
           stop_loss_ticket := stop_loss_ticket L;
           tp_ticket := tp_ticket L; entry_price := Some price;
           initial_stop := Some ps; current_stop := Some ps;
           oneR := Some (Qabs (pe - ps)); moved_to_breakeven := false;
           entry_time := Some now; half_qty := half_qty L;
           high_water := Some price; low_water := Some price;
           last_stop_update_time := None |})
        (clear_pending (opt e)))
  end.

(** [_get_chain]. *)
Definition _get_chain (handles : list Sym) (w : W) (s : Sym) : option Chain :=
  if existsb (Nat.eqb s) handles then option_chain w s else None.

(** Contract selection, sizing and entry once the confirmation count is
    reached. *)
Definition try_enter (p : Params) (now : Time) (handles : list Sym)
    (pe : Q) (e : Security) : M (Outcome Security) :=
  let dir := pending_dir (opt e) in
  chain <- read (fun w => _get_chain handles w (symbol e)) ;;
  match chain with
  | None | Some [] => ret (Done e)
  | Some chain =>
      spot <- read (fun w => price_of w (symbol e)) ;;
      let right := if (0 <? dir)%Z then Call else Put in
      best <- read (fun w => _pick_atm_contract p now w chain right spot) ;;
      match best with
      | None => ret (Done e)
      | Some best =>
          let mid := _mid best in
          if Qlt_bool 0 mid then
            tpv <- read total_portfolio_value ;;
            match risk_per_pos p tpv with
            | None => ret (Raised e)
            | Some rpp =>
                let qty := _option_qty_for_risk mid rpp dir in
                if negb (qty =? 0)%Z then
                  legs <- read (fun w => choose_legs p w chain right dir best) ;;
                  e <- place_legs legs qty e ;;
                  price <- read (fun w => price_of w (symbol e)) ;;
                  ret (record_entry now price pe e)
                else ret (Done e)
            end
          else ret (Done e)
      end
  end.

(** [self.time >= (confirm_ready_time or self.time)]. *)
Definition confirm_ready (now : Time) (o : OptionState) : bool :=
  match confirm_ready_time o with
  | Some t => (t <=? now)%Z
  | None => true
  end.

(** 1) Entry confirmation. *)
Definition confirm_step (p : Params) (now : Time) (handles : list Sym)
    (e : Security) : M (Outcome Security) :=
  let o := opt e in
  match pending_entry o with
  | Some pe =>
      if negb (pending_dir o =? 0)%Z && confirm_ready now o then
        px <- read (fun w => close_of w (symbol e)) ;;
        let passed := if (0 <? pending_dir o)%Z then Qle_bool pe px
                      else Qle_bool px pe in
        let n := if passed then (confirm_count o + 1)%Z else 0%Z in
        let e := with_opt e (set_confirm_count o n) in
        if (Z.max 1 (_confirm_bars p) <=? n)%Z
        then try_enter p now handles pe e
        else ret (Done e)
      else ret (Done e)
  | None => ret (Done e)
  end.

(** Breakeven after +R on the underlying; the synthetic stop is moved
    directly. *)
Definition options_breakeven (p : Params) (now : Time) (direction : Z)
    (price ep : Q) (e : Security) : Security :=
  let move := inject_Z direction * (price - ep) in
  match oneR (life e) with
  | Some r =>
      if negb (moved_to_breakeven (life e)) && negb (Qeq_bool r 0)
         && Qle_bool (_breakeven_trigger_R p * r) move
      then with_life e (set_stop (life e) ep true now)
      else e
  | None => e
  end.

(** Trailing after breakeven, through the throttle. *)
Definition options_trail (p : Params) (now : Time) (direction : Z)
    (ep hw lw : Q) (e : Security) : M Security :=
  ready <- read (fun w => atr_is_ready w (symbol e)) ;;
  if moved_to_breakeven (life e) && ready then
    atr <- read (fun w => atr_current_value w (symbol e)) ;;
    let cand := trail_candidate p direction ep hw lw atr in
    if more_favorable direction cand (life e) then
      ok <- read (fun w => _should_move_stop p now w e (Some cand)) ;;
      if ok then
        ret (with_life e
               (set_stop (life e) cand (moved_to_breakeven (life e)) now))
      else ret e
    else ret e
  else ret e.

(** The synthetic stop: close the legs when the underlying is at or beyond
    the stop level. *)
Definition stop_check (direction : Z) (price : Q) (e : Security)
  : M Security :=
  match current_stop (life e) with
  | Some cs =>
      let hit := if (0 <? direction)%Z then Qle_bool price cs
                 else Qle_bool cs price in
      if hit then _close_option_position e else ret e
  | None => ret e
  end.

(** 2) Exit management on the underlying: water marks, breakeven,
    trailing, and the synthetic stop. *)
Definition options_exit (p : Params) (now : Time) (e : Security)
  : M (Outcome Security) :=
  price <- read (fun w => price_of w (symbol e)) ;;
  let direction := if (0 <? option_qty (opt e))%Z then 1%Z else (-1)%Z in
  let '(hw, lw) := track_water direction price (life e) in
  let e := with_life e (set_water (life e) hw lw) in
  match entry_price (life e) with
  | None => ret (Raised e)
  | Some ep =>
      let e := options_breakeven p now direction price ep e in
      e <- options_trail p now direction ep hw lw e ;;
      e <- stop_check direction price e ;;
      ret (Done e)
  end.

Definition on_data_options_sec (p : Params) (now : Time) (handles : list Sym)
    (e : Security) : M (Outcome Security) :=
  hp <- read (fun w => has_pos w e) ;;
  r <- confirm_step p now handles e ;;
  match r with
  | Raised e' => ret (Raised e')
  | Done e' => if hp then options_exit p now e' else ret (Done e')
  end.

Definition on_data_options (p : Params) (now : Time) (a : Algo)
  : M (Outcome Algo) :=
  for_each_exc
    (fun s a =>
       r <- on_data_options_sec p now (_option_handles a) (securities a s) ;;
       ret (match r with
            | Done e => Done (store a s e)
            | Raised e => Raised (store a s e)
            end))
    (_selected a) a.

Definition on_data (p : Params) (now : Time) (a : Algo) : M (Outcome Algo) :=
  if negb (_use_options p)
  then a' <- on_data_equity p now a ;; ret (Done a')
  else on_data_options p now a.

(** The final state, platform state and call log of a handler run. *)
Definition run {A} (m : M A) (w : W) : A * W * list PlatformCall := m w.

Definition result {A} (m : M A) (w : W) : A := fst (fst (m w)).

Definition calls {A} (m : M A) (w : W) : list PlatformCall := snd (m w).

End Engine.

Notation "x <- m ;; k" := (bind m (fun x => k))
  (at level 61, m at next level, right associativity).

(** ** A simulated platform

    A small stand-in for the platform, used to replay concrete scenarios:
    every figure the strategy reads is a field, orders take the next free id,
    and a resting entry order reserves [|qty| * price / leverage] of the
    free margin. *)


(** Sorted insertion without repetition, for the levels of a fresh frame. *)
Fixpoint insert_sym (s : Sym) (l : list Sym) : list Sym :=
  match l with
  | [] => [s]
  | x :: t => if (s <? x)%nat then s :: x :: t
              else if (s =? x)%nat then x :: t
              else x :: insert_sym s t
  end.

Fixpoint insert_time (s : Time) (l : list Time) : list Time :=
  match l with
  | [] => [s]
  | x :: t => if (s <? x)%Z then s :: x :: t
              else if (s =? x)%Z then x :: t
              else x :: insert_time s t
  end.

(** The frame pandas builds from a list of rows: each level of the index
    holds the distinct labels of the rows, sorted. *)
Definition data_frame (rows : Frame) : DataFrame := {|
  symbol_level := fold_right insert_sym [] (map b_sym rows);
  time_level := fold_right insert_time [] (map b_time rows);
  df_rows := rows
|}.

Record Sim := {
  sim_value : Q;
  sim_margin : Q;
  sim_leverage : Q;
  sim_quantity : Sym -> Z;
  sim_price : Sym -> Q;
  sim_atr : Sym -> Q;
  sim_universe : list Sym;
  sim_frame : Frame;
  sim_chain : Sym -> option Chain;
  sim_next_id : OrderId
}.

(** The exchange calendar of the simulation: every day opens at 09:30
    (minute 570); the next open is the first one strictly after [t]. *)
Definition sim_next_open (t : Time) : Time :=
  let d := (t / 1440)%Z in
  if (t <? d * 1440 + 570)%Z then (d * 1440 + 570)%Z
  else ((d + 1) * 1440 + 570)%Z.

Definition sim_perform (w : Sim) (c : PlatformCall) : Sim * OrderId :=
  let reserve :=
    match c with
    | StopMarketOrder _ qty stop _ =>
        inject_Z (Z.abs qty) * stop / sim_leverage w
    | _ => 0
    end in
  ({| sim_value := sim_value w;
      sim_margin := Qred (sim_margin w - reserve);
      sim_leverage := sim_leverage w;
      sim_quantity := sim_quantity w;
      sim_price := sim_price w;
      sim_atr := sim_atr w;
      sim_universe := sim_universe w;
      sim_frame := sim_frame w;
      sim_chain := sim_chain w;
      sim_next_id := S (sim_next_id w) |},
   sim_next_id w).

#[export] Instance sim_platform : Platform Sim := {|
  total_portfolio_value := sim_value;
  margin_remaining := sim_margin;
  invested := fun w s => negb (sim_quantity w s =? 0)%Z;
  quantity := sim_quantity;
  calculate_order_quantity := fun w s target =>
    target * sim_value w / sim_price w s;
  security_leverage := fun w _ => sim_leverage w;
  price_of := sim_price;
  close_of := sim_price;
  atr_is_ready := fun _ _ => true;
  atr_current_value := sim_atr;
  minimum_price_variation := fun _ _ => Some 0.01;
  order_status := fun _ _ => Working;
  history_minute := fun w _ _ => data_frame (sim_frame w);
  history_daily := fun _ _ _ => None;
  option_chain := sim_chain;
  get_next_market_open := sim_next_open;
  universe_selected := sim_universe;
  is_warming_up := fun _ => false;
  raises := fun _ _ => false;
  perform := sim_perform
|}.

(** The platform state with a new price and holding for every symbol. *)
Definition sim_at (w : Sim) (price : Q) (qty : Z) : Sim := {|
  sim_value := sim_value w; sim_margin := sim_margin w;
  sim_leverage := sim_leverage w;
  sim_quantity := fun _ => qty; sim_price := fun _ => price;
  sim_atr := sim_atr w; sim_universe := sim_universe w;
  sim_frame := sim_frame w; sim_chain := sim_chain w;
  sim_next_id := sim_next_id w
|}.

Definition idle_options : OptionState := {|
  pending_dir := 0; pending_entry := None; pending_stop := None;
  confirm_count := 0; confirm_ready_time := None;
  option_long := None; option_short := None; option_qty := 0
|}.

(** A security as [on_securities_changed] leaves it, with a warm volume
    baseline of [avg] per opening window. *)
Definition fresh_security (s : Sym) (avg : Q) : Security := {|
  symbol := s; life := idle; opt := idle_options;
  vol := {| volume_sma := Some {| sma_period := 14;
                                  sma_samples := repeat avg 14 |};
            relative_volume := None |}
|}.

Definition bar (s : Sym) (t : Time) (o h l c v : Q) : Bar :=
  {| b_sym := s; b_time := t; b_open := o; b_high := h; b_low := l;
     b_close := c; b_volume := v |}.

(** *** Scenario: a morning scan over two symbols

    Minute history of the universe [1; 2], six bars requested per symbol.
    Symbol 1 has its six bars, 09:30 to 09:35; symbol 2 traded in two minutes
    only, 09:33 and 09:35.  The last five rows of the frame hold the bars of
    symbol 1 from 09:33 on and the two bars of symbol 2; the time level
    lists the unused labels 570 to 572, so the unstacked window is indexed
    [573; 574; 575], and both symbols have a bar at its first and at its last
    label.  Symbol 1 trades three times its usual opening volume, symbol 2
    nine tenths of it. *)

Definition scan_rows : Frame := [
  bar 1 570 100 100.5 99.5 100 100;
  bar 1 571 100 100.5 99.5 100 100;
  bar 1 572 100 100.5 99.5 100 100;
  bar 1 573 100 101   99.5 101 100;
  bar 1 574 101 101.5 100.5 101 100;
  bar 1 575 101 102   100.5 101.5 100;
  bar 2 573 50 50.5 49.75 50.25 45;
  bar 2 575 50.5 51 50.25 50.75 45
].

Definition scan_frame : DataFrame := data_frame scan_rows.

Definition scan_world : Sim := {|
  sim_value := 10000000; sim_margin := 10000000; sim_leverage := 4;
  sim_quantity := fun _ => 0%Z;
  sim_price := fun s => if (s =? 1)%nat then 101.5 else 50.75;
  sim_atr := fun _ => 2.0;
  sim_universe := [1; 2]%nat;
  sim_frame := scan_rows;
  sim_chain := fun _ => None;
  sim_next_id := 1%nat
|}.

Definition scan_algo : Algo := {|
  securities := fun s => fresh_security s 100;
  _selected := []; _option_handles := []
|}.

(** The defaults of [initialize] with [max-positions] set to 1. *)
Definition with_max_positions (p : Params) (k : Z) : Params := {|
  _stop_loss_atr_distance := _stop_loss_atr_distance p;
  _stop_loss_risk_size := _stop_loss_risk_size p;
  _max_positions := k;
  _opening_range_minutes := _opening_range_minutes p;
  _entry_buffer_atr := _entry_buffer_atr p;
  _leverage := _leverage p;
  _atr_price_floor := _atr_price_floor p;
  _breakeven_trigger_R := _breakeven_trigger_R p;
  _trail_ATR_mult := _trail_ATR_mult p;
  _margin_buffer := _margin_buffer p;
  _retry_fraction := _retry_fraction p;
  _trail_update_threshold_atr := _trail_update_threshold_atr p;
  _trail_min_ticks := _trail_min_ticks p;
  _rvol_threshold := _rvol_threshold p;
  _long_only := _long_only p;
  _gap_min_pct := _gap_min_pct p;
  _use_options := _use_options p;
  _option_use_debit_spread := _option_use_debit_spread p;
  _option_max_spread_ticks := _option_max_spread_ticks p;
  _option_min_oi := _option_min_oi p;
  _option_dte_max := _option_dte_max p;
  _confirm_delay_min := _confirm_delay_min p;
  _confirm_bars := _confirm_bars p
|}.

(** The same parameters in options mode, naked or with debit spreads. *)
Definition with_options (p : Params) (spread : bool) : Params := {|
  _stop_loss_atr_distance := _stop_loss_atr_distance p;
  _stop_loss_risk_size := _stop_loss_risk_size p;
  _max_positions := _max_positions p;
  _opening_range_minutes := _opening_range_minutes p;
  _entry_buffer_atr := _entry_buffer_atr p;
  _leverage := _leverage p;
  _atr_price_floor := _atr_price_floor p;
  _breakeven_trigger_R := _breakeven_trigger_R p;
  _trail_ATR_mult := _trail_ATR_mult p;
  _margin_buffer := _margin_buffer p;
  _retry_fraction := _retry_fraction p;
  _trail_update_threshold_atr := _trail_update_threshold_atr p;
  _trail_min_ticks := _trail_min_ticks p;
  _rvol_threshold := _rvol_threshold p;
  _long_only := _long_only p;
  _gap_min_pct := _gap_min_pct p;
  _use_options := true;
  _option_use_debit_spread := spread;
  _option_max_spread_ticks := _option_max_spread_ticks p;
  _option_min_oi := _option_min_oi p;
  _option_dte_max := _option_dte_max p;
  _confirm_delay_min := _confirm_delay_min p;
  _confirm_bars := _confirm_bars p
|}.

Definition scan_params : Params := with_max_positions default_params 1.

(** The symbols of the entry orders in a call log. *)
Definition entry_symbols (log : list PlatformCall) : list Sym :=
  flat_map (fun c => match c with
                     | StopMarketOrder s _ _ _ => [s]
                     | _ => []
                     end) log.

(** The symbols of [_selected] with an armed pending confirmation. *)
Definition armed_symbols (a : Algo) : list Sym :=
  filter (fun s => negb (pending_dir (opt (securities a s)) =? 0)%Z)
         (_selected a).

Definition state_of {A} (r : A * Sim * list PlatformCall) : A := fst (fst r).
Definition world_of {A} (r : A * Sim * list PlatformCall) : Sim := snd (fst r).
Definition log_of {A} (r : A * Sim * list PlatformCall) : list PlatformCall :=
  snd r.

(** *** Scenario: one long equity trade

    Parameters: the defaults with [breakeven-trigger-R = 0.5] and
    [trail-ATR-mult = 0.25].  ATR is 2, so the throttle threshold is
    [max(2 * 0.01, 0.25 * 2) = 0.5].  The scan has armed an entry order for
    100 shares with the stop level 98. *)

Definition trade_params : Params := {|
  _stop_loss_atr_distance := 0.5;
  _stop_loss_risk_size := 0.01;
  _max_positions := 8;
  _opening_range_minutes := 5;
  _entry_buffer_atr := 0.10;
  _leverage := 4;
  _atr_price_floor := 0.01;
  _breakeven_trigger_R := 0.5;
  _trail_ATR_mult := 0.25;
  _margin_buffer := 0.90;
  _retry_fraction := 0.50;
  _trail_update_threshold_atr := 0.25;
  _trail_min_ticks := 2;
  _rvol_threshold := 1.8;
  _long_only := true;
  _gap_min_pct := 0.0;
  _use_options := false;
  _option_use_debit_spread := false;
  _option_max_spread_ticks := 10;
  _option_min_oi := 200;
  _option_dte_max := 7;
  _confirm_delay_min := 7;
  _confirm_bars := 1
|}.

Definition trade_world : Sim := {|
  sim_value := 10000000; sim_margin := 10000000; sim_leverage := 4;
  sim_quantity := fun _ => 0%Z;
  sim_price := fun _ => 100;
  sim_atr := fun _ => 2.0;
  sim_universe := [1]%nat;
  sim_frame := [];
  sim_chain := fun _ => None;
  sim_next_id := 2%nat
|}.

Definition entry_order : Ticket := {| order_id := 1; ticket_quantity := 100 |}.

Definition armed_equity : Security :=
  with_life (fresh_security 1 100)
    (set_initial_stop (set_entry_ticket idle entry_order) 98).

Definition filled_event (id : OrderId) (price : Q) : OrderEvent :=
  {| ev_status := Filled; ev_symbol := 1; ev_order_id := id;
     ev_fill_price := price |}.

(** 09:40: the entry fills at 100; the stop (id 2) rests at 98 and the
    take-profit (id 3) for 50 shares at 102. *)
Definition trade_1 :=
  run (on_order_event_sec trade_params 580 (filled_event 1 100) armed_equity)
      (sim_at trade_world 100 100).

(** 09:41: the price is 101.5, one-half R is reached, breakeven at 100. *)
Definition trade_2 :=
  run (on_data_equity_sec trade_params 581 (state_of trade_1))
      (sim_at (world_of trade_1) 101.5 100).

(** 09:42: the price is still 101.5; the stop trails to 101. *)
Definition trade_3 :=
  run (on_data_equity_sec trade_params 582 (state_of trade_2))
      (sim_at (world_of trade_2) 101.5 100).

(** 09:43: the take-profit fills at 102, 50 shares remain. *)
Definition trade_4 :=
  run (on_order_event_sec trade_params 583 (filled_event 3 102)
         (state_of trade_3))
      (sim_at (world_of trade_3) 102 50).

(** The take-profit fill arriving at 09:42 instead, in the same time step as
    the trailing update. *)
Definition trade_4_same_bar :=
  run (on_order_event_sec trade_params 582 (filled_event 3 102)
         (state_of trade_3))
      (sim_at (world_of trade_3) 102 50).

(** *** Scenario: an options entry

    Symbol 1 is armed long at 102 with the stop level 101; at 09:40 the
    underlying closes at 103.  The chain lists, in this order, the call
    struck at 103 expiring today, a call struck at 104 expiring in a week,
    and the call struck at 104 expiring today. *)

Definition call_contract (s : Sym) (strike : Q) (expiry : Time) : Contract :=
  {| c_symbol := s; c_right := Call; c_strike := strike;
     c_expiry := Some expiry; c_bid := 1; c_ask := 1.0625;
     c_open_interest := Some 500%Z; c_last_price := 1 |}.

Definition atm_call : Contract := call_contract 101 103 960.
Definition wing_next_week : Contract := call_contract 102 104 11040.
Definition wing_today : Contract := call_contract 103 104 960.

Definition options_chain : Chain := [atm_call; wing_next_week; wing_today].

Definition options_world : Sim := {|
  sim_value := 10000000; sim_margin := 10000000; sim_leverage := 4;
  sim_quantity := fun _ => 0%Z;
  sim_price := fun _ => 103;
  sim_atr := fun _ => 2.0;
  sim_universe := [1]%nat;
  sim_frame := [];
  sim_chain := fun s => if (s =? 1)%nat then Some options_chain else None;
  sim_next_id := 1%nat
|}.

Definition armed_options : Security :=
  with_opt (fresh_security 1 100) {|
    pending_dir := 1; pending_entry := Some 102; pending_stop := Some 101;
    confirm_count := 0; confirm_ready_time := Some 577%Z;
    option_long := None; option_short := None; option_qty := 0 |}.

Definition options_entry (spread : bool) :=
  run (on_data_options_sec (with_options default_params spread) 580 [1]%nat
         armed_options)
      options_world.

(** The quantities of the entry orders in a call log. *)
Definition entry_quantities (log : list PlatformCall) : list Z :=
  flat_map (fun c => match c with
                     | StopMarketOrder _ q _ _ => [q]
                     | _ => []
                     end) log.

(** *** Scenario: the same scan with little free margin

    Free margin is 1,000,000 and two positions are allowed, so the margin
    cap binds.  The first entry order reserves margin in the simulation, and
    the second order is sized after that. *)

Definition tight_world : Sim := {|
  sim_value := sim_value scan_world; sim_margin := 1000000;
  sim_leverage := sim_leverage scan_world;
  sim_quantity := sim_quantity scan_world;
  sim_price := sim_price scan_world; sim_atr := sim_atr scan_world;
  sim_universe := sim_universe scan_world;
  sim_frame := sim_frame scan_world; sim_chain := sim_chain scan_world;
  sim_next_id := sim_next_id scan_world
|}.

Definition tight_params : Params := with_max_positions default_params 2.

Definition tight_scan :=
  run (_scan_for_entries tight_params 575 scan_algo) tight_world.

(** *** Scenario: an options position about to reach breakeven

    One call (contract 101) is held on symbol 1.  The underlying was entered
    at 103 with the stop at 102.875, so [oneR] is 0.125; ATR is 2 and the
    throttle threshold [max(2 * 0.01, 0.25 * 2)] is 0.5.  At 09:41 the
    underlying trades at 103.125, one [oneR] above the entry. *)

Definition near_breakeven : Security :=
  with_opt
    (with_life (fresh_security 1 100) {|
       entry_ticket := None; stop_loss_ticket := None; tp_ticket := None;
       entry_price := Some 103; initial_stop := Some 102.875;
       current_stop := Some 102.875; oneR := Some 0.125;
       moved_to_breakeven := false; entry_time := Some 580%Z;
       half_qty := 0; high_water := Some 103; low_water := Some 103;
       last_stop_update_time := None |})
    {| pending_dir := 0; pending_entry := None; pending_stop := None;
       confirm_count := 0; confirm_ready_time := None;
       option_long := Some 101%nat; option_short := None; option_qty := 1 |}.

Definition breakeven_bar :=
  run (on_data_options_sec (with_options default_params false) 581 [1]%nat
         near_breakeven)
      (sim_at options_world 103.125 1).

(** The current stop of a security, [0] when unset. *)
Definition stop_level (e : Security) : Q :=
  match current_stop (life e) with Some s => s | None => 0 end.

(** * Properties *)

(** Keep the arithmetic and the throttle folded under [simpl]. *)
#[local] Arguments Qabs : simpl never.
#[local] Arguments Qplus : simpl never.
#[local] Arguments Qminus : simpl never.
#[local] Arguments Qmult : simpl never.
#[local] Arguments Qdiv : simpl never.
#[local] Arguments Qle_bool : simpl never.
#[local] Arguments Qeq_bool : simpl never.
#[local] Arguments Qlt_bool : simpl never.
#[local] Arguments _should_move_stop : simpl never.
#[local] Arguments trail_candidate : simpl never.
#[local] Arguments more_favorable : simpl never.
#[local] Arguments throttle_threshold : simpl never.
#[local] Arguments track_water : simpl never.
#[local] Arguments sign_of : simpl never.
#[local] Arguments breakeven_step : simpl never.
#[local] Arguments trail_step : simpl never.
#[local] Arguments options_trail : simpl never.
#[local] Arguments options_breakeven : simpl never.
#[local] Arguments stop_check : simpl never.
#[local] Arguments place_legs : simpl never.
#[local] Arguments try_enter : simpl never.
#[local] Arguments confirm_step : simpl never.
#[local] Arguments options_exit : simpl never.
#[local] Arguments _close_option_position : simpl never.

(** ** Reflection of the float comparisons *)

Lemma Qlt_bool_true (a b : Q) : Qlt_bool a b = true <-> a < b.
Proof.
  unfold Qlt_bool. rewrite negb_true_iff. split.
  - intros H. apply Qnot_le_lt. intros Hle.
    apply Qle_bool_iff in Hle. congruence.
  - intros H. destruct (Qle_bool b a) eqn:E; [|reflexivity].
    apply Qle_bool_iff in E. exfalso. apply (Qlt_not_le _ _ H E).
Qed.

Lemma Qlt_bool_false (a b : Q) : Qlt_bool a b = false <-> b <= a.
Proof.
  unfold Qlt_bool. rewrite negb_false_iff. apply Qle_bool_iff.
Qed.

Lemma Qle_bool_false (a b : Q) : Qle_bool a b = false <-> b < a.
Proof.
  rewrite <- Qlt_bool_true. unfold Qlt_bool.
  destruct (Qle_bool a b); simpl; split; congruence.
Qed.

(** ** The throttle *)

Ltac monad :=
  unfold result, calls, run, bind, ret, read, call in *.

Lemma should_move_stop_throttled {W} {PF : Platform W} (p : Params)
    (now : Time) (w : W) (e : Security) (np cs : Q) :
  current_stop (life e) = Some cs ->
  _should_move_stop p now w e (Some np) = true ->
  updated_at (life e) now = false
  /\ atr_is_ready w (symbol e) = true
  /\ 0 < atr_current_value w (symbol e)
  /\ throttle_threshold p w (symbol e) <= Qabs (np - cs).
Proof.
  intros Hcs H. unfold _should_move_stop in H. rewrite Hcs in H.
  destruct (updated_at (life e) now); [discriminate|].
  destruct (atr_is_ready w (symbol e)); [|discriminate]. simpl in H.
  destruct (Qle_bool (atr_current_value w (symbol e)) 0) eqn:Hatr;
    [discriminate|].
  destruct (Qlt_bool _ _) eqn:Hthr in H; [discriminate|].
  repeat split.
  - now apply Qle_bool_false.
  - now apply Qlt_bool_false.
Qed.

Lemma should_move_stop_same_bar {W} {PF : Platform W} (p : Params)
    (now : Time) (w : W) (e : Security) (np : option Q) :
  is_some (current_stop (life e)) = true ->
  updated_at (life e) now = true ->
  _should_move_stop p now w e np = false.
Proof.
  intros Hcs Hup. unfold _should_move_stop.
  destruct np; [|reflexivity].
  destruct (current_stop (life e)); [|discriminate].
  now rewrite Hup.
Qed.

Lemma updated_at_set_stop (l : Lifecycle) (s : Q) (b : bool) (now : Time) :
  updated_at (set_stop l s b now) now = true.
Proof. unfold updated_at. simpl. apply Z.eqb_refl. Qed.

(** What one breakeven step does: nothing, or exactly one stop move to the
    entry price that the throttle let through. *)
Lemma breakeven_step_cases {W} {PF : Platform W} (p : Params) (now : Time)
    (direction : Z) (price ep r : Q) (st : Ticket) (e : Security) (w : W) :
  run (breakeven_step p now direction price ep r st e) w = (e, w, [])
  \/ (run (breakeven_step p now direction price ep r st e) w
      = (with_life e (set_stop (life e) ep true now),
         fst (perform w (UpdateStopPrice (order_id st) ep)),
         [UpdateStopPrice (order_id st) ep])
      /\ moved_to_breakeven (life e) = false
      /\ _should_move_stop p now w e (Some ep) = true).
Proof.
  unfold breakeven_step. monad.
  destruct (moved_to_breakeven (life e)); simpl; [left; reflexivity|].
  destruct (Qle_bool _ _); simpl; [|left; reflexivity].
  destruct (_should_move_stop p now w e (Some ep)) eqn:Hok;
    [|left; reflexivity].
  right. destruct (perform w _). simpl. repeat split; reflexivity.
Qed.

(** What one trailing step does: nothing, or exactly one stop move to a
    strictly more favorable level that the throttle let through. *)
Lemma trail_step_cases {W} {PF : Platform W} (p : Params) (now : Time)
    (direction : Z) (ep hw lw : Q) (st : Ticket) (e : Security) (w : W) :
  run (trail_step p now direction ep hw lw st e) w = (e, w, [])
  \/ (exists cand,
        run (trail_step p now direction ep hw lw st e) w
        = (with_life e (set_stop (life e) cand true now),
           fst (perform w (UpdateStopPrice (order_id st) cand)),
           [UpdateStopPrice (order_id st) cand])
        /\ moved_to_breakeven (life e) = true
        /\ more_favorable direction cand (life e) = true
        /\ _should_move_stop p now w e (Some cand) = true).
Proof.
  unfold trail_step. monad.
  destruct (moved_to_breakeven (life e)) eqn:Hbe; simpl;
    [|left; reflexivity].
  destruct (atr_is_ready w (symbol e)); simpl; [|left; reflexivity].
  set (cand := trail_candidate p direction ep hw lw
                 (atr_current_value w (symbol e))).
  destruct (more_favorable direction cand (life e)) eqn:Hfav;
    [|left; reflexivity].
  destruct (_should_move_stop p now w e (Some cand)) eqn:Hok;
    [|left; reflexivity].
  right. exists cand. destruct (perform w _). simpl.
  repeat split; try reflexivity; assumption.
Qed.

(** What [on_data] does to one equity position: it refreshes the water
    marks and applies at most one stop move, which the throttle let
    through. *)
Lemma on_data_equity_sec_cases {W} {PF : Platform W} (p : Params)
    (now : Time) (e : Security) (w : W) :
  (calls (on_data_equity_sec p now e) w = []
   /\ (result (on_data_equity_sec p now e) w = e
       \/ exists hw lw,
            result (on_data_equity_sec p now e) w
            = with_life e (set_water (life e) hw lw)))
  \/ (exists st np hw lw,
        stop_loss_ticket (life e) = Some st
        /\ calls (on_data_equity_sec p now e) w
           = [UpdateStopPrice (order_id st) np]
        /\ result (on_data_equity_sec p now e) w
           = with_life e (set_stop (set_water (life e) hw lw) np true now)
        /\ _should_move_stop p now w
             (with_life e (set_water (life e) hw lw)) (Some np) = true
        /\ (moved_to_breakeven (life e) = true ->
            more_favorable (sign_of (quantity w (symbol e))) np (life e)
            = true)).
Proof.
  unfold on_data_equity_sec. monad.
  destruct (invested w (symbol e)); cbn; [|left; split; [|left]; reflexivity].
  destruct (entry_ticket (life e)); [|left; split; [|left]; reflexivity].
  destruct (stop_loss_ticket (life e)) as [st|];
    [|left; split; [|left]; reflexivity].
  destruct (oneR (life e)) as [r|]; [|left; split; [|left]; reflexivity].
  destruct (entry_price (life e)) as [ep|];
    [|left; split; [|left]; reflexivity].
  destruct (Qeq_bool r 0); [left; split; [|left]; reflexivity|].
  destruct (quantity w (symbol e) =? 0)%Z;
    [left; split; [|left]; reflexivity|].
  destruct (track_water _ _ _) as [hw lw].
  set (e1 := with_life e (set_water (life e) hw lw)).
  set (d := sign_of (quantity w (symbol e))).
  pose proof (breakeven_step_cases p now d (price_of w (symbol e)) ep r st e1 w)
    as Hb.
  unfold run in Hb.
  destruct (breakeven_step p now d (price_of w (symbol e)) ep r st e1 w)
    as [[e2 w1] l1].
  pose proof (trail_step_cases p now d ep hw lw st e2 w1) as Ht.
  unfold run in Ht.
  destruct (trail_step p now d ep hw lw st e2 w1) as [[e3 w2] l2].
  cbn in *.
  destruct Hb as [Hb | (Hb & Hbe & Hok)]; inversion Hb; subst; clear Hb.
  - destruct Ht as [Ht | (cand & Ht & Hbe & Hfav & Hok)];
      inversion Ht; subst; clear Ht; cbn.
    + left. split; [reflexivity|]. right. now exists hw, lw.
    + right. exists st, cand, hw, lw. repeat split; try reflexivity.
      * exact Hok.
      * intros _. exact Hfav.
  - destruct Ht as [Ht | (cand & Ht & Hbe' & Hfav & Hok')];
      inversion Ht; subst; clear Ht; cbn.
    + right. exists st, ep, hw, lw. repeat split; try reflexivity.
      * exact Hok.
      * intros Hbe'. cbn in Hbe. congruence.
    + exfalso.
      rewrite should_move_stop_same_bar in Hok'; [discriminate|reflexivity|].
      apply updated_at_set_stop.
Qed.

Lemma more_favorable_long (d : Z) (cand cs : Q) (l : Lifecycle) :
  current_stop l = Some cs -> more_favorable d cand l = true ->
  ((0 < d)%Z -> cs < cand) /\ ((d <= 0)%Z -> cand < cs).
Proof.
  unfold more_favorable. intros -> H.
  destruct (0 <? d)%Z eqn:Hd.
  - apply Z.ltb_lt in Hd. apply Qlt_bool_true in H. split; [easy|lia].
  - apply Z.ltb_ge in Hd. apply Qlt_bool_true in H. split; [lia|easy].
Qed.

Lemma sign_of_pos (q : Z) : (0 < q)%Z -> sign_of q = 1%Z.
Proof. unfold sign_of. intros H. apply Z.ltb_lt in H. now rewrite H. Qed.

Lemma sign_of_nonpos (q : Z) : (q <= 0)%Z -> sign_of q = (-1)%Z.
Proof. unfold sign_of. intros H. apply Z.ltb_ge in H. now rewrite H. Qed.

(** The per-bar logic never loosens a stop that is already at breakeven:
    for a long holding the stop stays or rises, for a short one it stays or
    falls. *)
Lemma on_data_equity_never_loosens {W} {PF : Platform W} (p : Params)
    (now : Time) (e : Security) (w : W) (cs : Q) :
  current_stop (life e) = Some cs ->
  moved_to_breakeven (life e) = true ->
  exists cs',
    current_stop (life (result (on_data_equity_sec p now e) w)) = Some cs'
    /\ moved_to_breakeven (life (result (on_data_equity_sec p now e) w)) = true
    /\ ((0 < quantity w (symbol e))%Z -> cs <= cs')
    /\ ((quantity w (symbol e) <= 0)%Z -> cs' <= cs).
Proof.
  intros Hcs Hbe.
  destruct (on_data_equity_sec_cases p now e w)
    as [[_ [-> | (hw & lw & ->)]] | (st & np & hw & lw & _ & _ & -> & _ & Hfav)].
  - exists cs. repeat split; auto; intros; apply Qle_refl.
  - exists cs. repeat split; auto; intros; apply Qle_refl.
  - exists np. cbn. repeat split.
    + intros Hq. apply Qlt_le_weak.
      apply (more_favorable_long _ _ _ _ Hcs (Hfav Hbe)).
      rewrite sign_of_pos by assumption. lia.
    + intros Hq. apply Qlt_le_weak.
      apply (more_favorable_long _ _ _ _ Hcs (Hfav Hbe)).
      rewrite sign_of_nonpos by assumption. lia.
Qed.

(** ** The scan's selection *)

(** The symbols the scan builds orders for are the tradable columns of the
    minute window that closed up (and, unless long-only, those that closed
    down): the list depends on the window, the guards and the gap filter
    only, not on the relative-volume ranking. *)
Lemma build_orders_symbols {W} {PF : Platform W} (p : Params) (w : W)
    (gap : Sym -> bool) (f : DataFrame) (open_s close_s : Series) :
  map o_equity (build_orders p w gap f open_s close_s)
  = filter (tradable p w gap)
           (filter (closed_up open_s close_s) (map fst close_s))
    ++ (if negb (_long_only p)
        then filter (tradable p w gap)
                    (filter (closed_down open_s close_s) (map fst close_s))
        else []).
Proof.
  unfold build_orders. rewrite map_app, map_map. cbn [o_equity long_order].
  rewrite map_id. f_equal.
  destruct (negb (_long_only p)); [|reflexivity].
  rewrite map_map. cbn [o_equity short_order]. apply map_id.
Qed.

(** C1.  Replaying the morning scan with [max-positions = 1].  The window,
    the last five rows of the history, has the columns [1; 2] and the index
    [573; 574; 575]; both symbols have an open at its first label and a
    higher close at its last.  The scan keeps symbol 1 as its only in-play
    symbol (relative volume 3.0 against 0.9 for symbol 2, threshold 1.8),
    yet it places entry orders for both symbols, because the order loops run
    over every column of the minute window and not over the ranked
    selection.  The same holds for the pending confirmations armed in
    options mode.  The claim (at most [maxPositions] candidates, all above
    the threshold, exactly the top ranked) fails on this input. *)
Theorem C1_scan_orders_ignore_the_rvol_selection :
  let r := run (_scan_for_entries scan_params 575 scan_algo) scan_world in
  let a := outcome_state (state_of r) in
  let ro := run (_scan_for_entries (with_options scan_params false) 575
                   scan_algo) scan_world in
  let window := tail 5 (history_minute scan_world [1; 2]%nat 6) in
  _max_positions scan_params = 1%Z
  /\ map (fun b => (b_sym b, b_time b)) (df_rows window)
     = [(1%nat, 573%Z); (1%nat, 574%Z); (1%nat, 575%Z);
        (2%nat, 573%Z); (2%nat, 575%Z)]
  /\ columns window = [1; 2]%nat
  /\ index window = [573; 574; 575]%Z
  /\ open_by_symbol window = Some [(1%nat, Some 100); (2%nat, Some 50)]
  /\ close_by_symbol window = Some [(1%nat, Some 101.5); (2%nat, Some 50.75)]
  /\ top_by_rvol scan_params a
       (filter (fun s => in_play scan_params (securities a s)) [1; 2]%nat)
     = [1]%nat
  /\ entry_symbols (log_of r) = [1; 2]%nat
  /\ in_play scan_params (securities a 2%nat) = false
  /\ option_map Qred (relative_volume (vol (securities a 2%nat))) = Some 0.9
  /\ armed_symbols (outcome_state (state_of ro)) = [1; 2]%nat.
Proof. vm_compute. repeat split; reflexivity. Qed.

(** C2.  Replaying the long trade: at 09:42 the position is at breakeven
    and its stop has trailed to 101; the take-profit fill at 09:43 puts the
    stop back to the entry price 100.  The stop of a long position moved
    down after [moved_to_breakeven] was set, so the claim fails on this
    input. *)
Theorem C2_take_profit_fill_loosens_a_trailed_stop :
  moved_to_breakeven (life (state_of trade_3)) = true
  /\ (0 < quantity (sim_at (world_of trade_3) 102 50) 1%nat)%Z
  /\ option_map Qred (current_stop (life (state_of trade_3))) = Some 101
  /\ moved_to_breakeven (life (state_of trade_4)) = true
  /\ option_map Qred (current_stop (life (state_of trade_4))) = Some 100
  /\ stop_level (state_of trade_4) < stop_level (state_of trade_3)
  /\ log_of trade_4 = [UpdateQuantity 2 (-50); UpdateStopPrice 2 100].
Proof. vm_compute. repeat split; reflexivity. Qed.

(** Once a stop move is recorded at a timestamp, the per-bar logic applies
    no further move at that timestamp. *)
Lemma on_data_equity_once_per_bar {W} {PF : Platform W} (p : Params)
    (now : Time) (e : Security) (w : W) :
  is_some (current_stop (life e)) = true ->
  updated_at (life e) now = true ->
  calls (on_data_equity_sec p now e) w = []
  /\ current_stop (life (result (on_data_equity_sec p now e) w))
     = current_stop (life e).
Proof.
  intros Hcs Hup.
  destruct (on_data_equity_sec_cases p now e w)
    as [[Hlog [-> | (hw & lw & ->)]] | (st & np & hw & lw & _ & _ & _ & Hok & _)].
  - now split.
  - now split.
  - rewrite should_move_stop_same_bar in Hok; [discriminate| |]; assumption.
Qed.

(** Trailing in options mode goes through the same throttle: the step
    leaves the security as it is, or moves the stop to a strictly more
    favorable candidate that [_should_move_stop] let through. *)
Lemma options_trail_cases {W} {PF : Platform W} (p : Params) (now : Time)
    (direction : Z) (ep hw lw : Q) (e : Security) (w : W) :
  run (options_trail p now direction ep hw lw e) w = (e, w, [])
  \/ (exists cand,
        run (options_trail p now direction ep hw lw e) w
        = (with_life e (set_stop (life e) cand true now), w, [])
        /\ moved_to_breakeven (life e) = true
        /\ more_favorable direction cand (life e) = true
        /\ _should_move_stop p now w e (Some cand) = true).
Proof.
  unfold options_trail. monad.
  destruct (moved_to_breakeven (life e)) eqn:Hbe; simpl;
    [|left; reflexivity].
  destruct (atr_is_ready w (symbol e)); simpl; [|left; reflexivity].
  set (cand := trail_candidate p direction ep hw lw
                 (atr_current_value w (symbol e))).
  destruct (more_favorable direction cand (life e)) eqn:Hfav;
    [|left; reflexivity].
  destruct (_should_move_stop p now w e (Some cand)) eqn:Hok;
    [|left; reflexivity].
  right. exists cand. repeat split; try reflexivity; assumption.
Qed.

(** C5.  Not every stop modification is throttled.  The take-profit
    handler moves the stop without consulting the throttle: in the replayed
    trade the stop was trailed to 101 at 09:42; a take-profit fill in the
    same time step moves it again, to 100, although [_should_move_stop]
    refuses that very change.  And with the stop already at the entry price,
    the handler still re-sends the stop price: a displacement of 0 against a
    threshold of 0.5.  The breakeven move of options mode is not throttled
    either: it moves the stop from 102.875 to 103, a displacement of 0.125
    against a threshold of 0.5 that [_should_move_stop] refuses.  The claim
    fails on these inputs. *)
Theorem C5_stop_moves_bypass_the_throttle :
  let e := state_of trade_3 in
  let w := sim_at (world_of trade_3) 102 50 in
  last_stop_update_time (life e) = Some 582%Z
  /\ log_of trade_3 = [UpdateStopPrice 2 (101.0000)]
  /\ _should_move_stop trade_params 582 w e (Some 100) = false
  /\ log_of trade_4_same_bar = [UpdateQuantity 2 (-50); UpdateStopPrice 2 100]
  /\ stop_level (state_of trade_4_same_bar) < stop_level e
  /\ (let e2 := state_of trade_2 in
      let w2 := sim_at (world_of trade_2) 102 50 in
      stop_level e2 == 100
      /\ Qabs (100 - stop_level e2) < throttle_threshold trade_params w2 1%nat
      /\ In (UpdateStopPrice 2 100)
            (calls (on_order_event_sec trade_params 583 (filled_event 3 102) e2)
                   w2))
  /\ (let po := with_options default_params false in
      let wo := sim_at options_world 103.125 1 in
      let eo := outcome_state (state_of breakeven_bar) in
      has_pos wo near_breakeven = true
      /\ stop_level near_breakeven == 102.875
      /\ throttle_threshold po wo 1%nat == 0.5
      /\ Qabs (103 - stop_level near_breakeven) < throttle_threshold po wo 1%nat
      /\ _should_move_stop po 581 wo near_breakeven (Some 103) = false
      /\ current_stop (life eo) = Some 103
      /\ moved_to_breakeven (life eo) = true
      /\ last_stop_update_time (life eo) = Some 581%Z
      /\ log_of breakeven_bar = []).
Proof.
  vm_compute. repeat split; try reflexivity.
  right. left. reflexivity.
Qed.

(** The stop moves that are throttled.  For a position that has a stop,
    one pass of the per-bar logic (breakeven and trailing, equity mode)
    applies at most one stop move; a move is applied only if no stop move was recorded at the same
    timestamp, ATR is ready and positive, and the displacement from the
    current stop is at least [max(minTicks * tick, thresholdATR * ATR)];
    without a move the stop is unchanged; and once a move is recorded at a
    timestamp, further passes at that timestamp apply none.  Trailing in
    options mode moves the synthetic stop under the same conditions.  (The
    take-profit handler is not throttled.) *)
Theorem bar_logic_is_throttled {W} {PF : Platform W} (p : Params)
    (now : Time) (e : Security) (w : W) (cs : Q) :
  current_stop (life e) = Some cs ->
  let log := calls (on_data_equity_sec p now e) w in
  let e' := result (on_data_equity_sec p now e) w in
  (List.length log <= 1)%nat
  /\ (forall c, In c log ->
        exists id np,
          c = UpdateStopPrice id np
          /\ current_stop (life e') = Some np
          /\ last_stop_update_time (life e') = Some now
          /\ updated_at (life e) now = false
          /\ atr_is_ready w (symbol e) = true
          /\ 0 < atr_current_value w (symbol e)
          /\ throttle_threshold p w (symbol e) <= Qabs (np - cs))
  /\ (log = [] -> current_stop (life e') = Some cs)
  /\ (forall w2,
        updated_at (life e') now = true ->
        calls (on_data_equity_sec p now e') w2 = []
        /\ current_stop (life (result (on_data_equity_sec p now e') w2))
           = current_stop (life e'))
  /\ (forall direction ep hw lw,
        let eo := result (options_trail p now direction ep hw lw e) w in
        current_stop (life eo) = Some cs
        \/ (exists np,
              current_stop (life eo) = Some np
              /\ last_stop_update_time (life eo) = Some now
              /\ updated_at (life e) now = false
              /\ atr_is_ready w (symbol e) = true
              /\ 0 < atr_current_value w (symbol e)
              /\ throttle_threshold p w (symbol e) <= Qabs (np - cs))).
Proof.
  intros Hcs log e'. subst log e'.
  assert (Hopt : forall direction ep hw lw,
            let eo := result (options_trail p now direction ep hw lw e) w in
            current_stop (life eo) = Some cs
            \/ (exists np,
                  current_stop (life eo) = Some np
                  /\ last_stop_update_time (life eo) = Some now
                  /\ updated_at (life e) now = false
                  /\ atr_is_ready w (symbol e) = true
                  /\ 0 < atr_current_value w (symbol e)
                  /\ throttle_threshold p w (symbol e) <= Qabs (np - cs))).
  { intros direction ep hw lw. cbv zeta. unfold result.
    destruct (options_trail_cases p now direction ep hw lw e w)
      as [H | (cand & H & _ & _ & Hok)]; unfold run in H; rewrite H;
      [left; exact Hcs|].
    right. exists cand.
    destruct (should_move_stop_throttled p now w e cand cs Hcs Hok)
      as (Hup & Hready & Hatr & Hthr).
    cbn. repeat split; assumption. }
  assert (Hsome : is_some (current_stop
            (life (result (on_data_equity_sec p now e) w))) = true).
  { destruct (on_data_equity_sec_cases p now e w)
      as [[_ [-> | (hw & lw & ->)]] | (st & np & hw & lw & _ & _ & -> & _)];
      cbn; try rewrite Hcs; reflexivity. }
  destruct (on_data_equity_sec_cases p now e w)
    as [[Hlog Hres] | (st & np & hw & lw & Hst & Hlog & Hres & Hok & _)].
  - rewrite Hlog. split; [cbn; lia|]. split; [intros c []|].
    split; [intros _; destruct Hres as [-> | (hw & lw & ->)]; exact Hcs|].
    split; [|exact Hopt].
    intros w2 Hup. now apply on_data_equity_once_per_bar.
  - rewrite Hlog. split; [cbn; lia|]. split.
    { intros c [<- | []]. exists (order_id st), np.
      destruct (should_move_stop_throttled p now w
                  (with_life e (set_water (life e) hw lw)) np cs Hcs Hok)
        as (Hup & Hready & Hatr & Hthr).
      rewrite Hres. cbn. repeat split; assumption. }
    split; [intros Hnil; discriminate|].
    split; [|exact Hopt].
    intros w2 Hup. now apply on_data_equity_once_per_bar.
Qed.

(** The throttle on the replayed trade: the 09:41 pass with the stop at
    98. *)
Lemma bar_logic_is_throttled_example :
  current_stop (life (state_of trade_1)) = Some 98
  /\ (List.length (calls (on_data_equity_sec trade_params 581 (state_of trade_1))
                         (sim_at (world_of trade_1) 101.5 100)) <= 1)%nat.
Proof.
  split; [reflexivity|].
  apply (bar_logic_is_throttled trade_params 581 (state_of trade_1)
           (sim_at (world_of trade_1) 101.5 100) 98).
  reflexivity.
Defined.

(** ** The risk unit [oneR] *)

(** Case analysis on the next scrutinee of the goal. *)
Ltac split_match :=
  match goal with
  | |- context [match ?x with _ => _ end] =>
      lazymatch x with
      | context [match _ with _ => _ end] => fail
      | _ => destruct x eqn:?
      end
  end.

Lemma close_leg_run {W} {PF : Platform W} (leg : option Sym) (w : W) :
  fst (fst (close_leg leg w)) = tt.
Proof. now destruct (fst (fst (close_leg leg w))). Qed.

Lemma close_option_position_life {W} {PF : Platform W} (sec : Security)
    (w : W) :
  result (_close_option_position sec) w = with_opt sec (clear_legs (opt sec)).
Proof.
  unfold _close_option_position. monad.
  destruct (close_leg (option_long (opt sec)) w) as [[[] w1] l1].
  destruct (close_leg (option_short (opt sec)) w1) as [[[] w2] l2].
  reflexivity.
Qed.

Lemma place_legs_state {W} {PF : Platform W} (legs : Legs) (qty : Z)
    (e : Security) (w : W) :
  life (result (place_legs legs qty e) w) = life e
  /\ pending_stop (opt (result (place_legs legs qty e) w))
     = pending_stop (opt e)
  /\ symbol (result (place_legs legs qty e) w) = symbol e.
Proof.
  unfold place_legs. monad.
  destruct legs; repeat (destruct (perform _ _)); cbn; repeat split.
Qed.

Lemma options_breakeven_oneR (p : Params) (now : Time) (direction : Z)
    (price ep : Q) (e : Security) :
  oneR (life (options_breakeven p now direction price ep e)) = oneR (life e).
Proof.
  unfold options_breakeven.
  destruct (oneR (life e)) eqn:Hr; [|exact Hr].
  destruct (_ && _); [cbn|]; exact Hr.
Qed.

Lemma options_trail_oneR {W} {PF : Platform W} (p : Params) (now : Time)
    (direction : Z) (ep hw lw : Q) (e : Security) (w : W) :
  oneR (life (result (options_trail p now direction ep hw lw e) w))
  = oneR (life e).
Proof.
  unfold options_trail. monad.
  repeat (split_match; cbn; try reflexivity).
Qed.

Lemma stop_check_oneR {W} {PF : Platform W} (direction : Z) (price : Q)
    (e : Security) (w : W) :
  oneR (life (result (stop_check direction price e) w)) = oneR (life e).
Proof.
  unfold stop_check.
  destruct (current_stop (life e)); [|reflexivity].
  destruct (if (0 <? direction)%Z then _ else _); [|reflexivity].
  now rewrite close_option_position_life.
Qed.

(** The exit management of an options position never touches [oneR]. *)
Lemma options_exit_oneR {W} {PF : Platform W} (p : Params) (now : Time)
    (e : Security) (w : W) :
  oneR (life (outcome_state (result (options_exit p now e) w)))
  = oneR (life e).
Proof.
  unfold options_exit. monad.
  destruct (track_water _ _ _) as [hw lw]. cbn.
  destruct (entry_price (life e)) as [ep|]; [|reflexivity].
  match goal with
  | |- context [options_trail p now ?d ep hw lw ?e1 w] =>
      pose proof (options_trail_oneR p now d ep hw lw e1 w) as Ht;
      rewrite options_breakeven_oneR in Ht;
      unfold result, run in Ht;
      destruct (options_trail p now d ep hw lw e1 w) as [[e2 w2] l2]
  end.
  match goal with
  | |- context [stop_check ?d ?pr e2 w2] =>
      pose proof (stop_check_oneR d pr e2 w2) as Hs;
      unfold result, run in Hs;
      destruct (stop_check d pr e2 w2) as [[e3 w3] l3]
  end.
  cbn in *. congruence.
Qed.

(** An options entry attempt leaves [oneR] alone or, when it enters, sets
    it to the distance between the pending entry and stop levels, with the
    underlying's current price as the entry price. *)
Lemma try_enter_oneR {W} {PF : Platform W} (p : Params) (now : Time)
    (handles : list Sym) (pe : Q) (e : Security) (w : W) :
  let e' := outcome_state (result (try_enter p now handles pe e) w) in
  oneR (life e') = oneR (life e)
  \/ (exists ps,
        pending_stop (opt e) = Some ps
        /\ oneR (life e') = Some (Qabs (pe - ps))
        /\ initial_stop (life e') = Some ps
        /\ exists w', entry_price (life e') = Some (price_of w' (symbol e))).
Proof.
  cbv zeta. unfold try_enter. monad.
  destruct (_get_chain handles w (symbol e)) as [[|c chain]|];
    [left; reflexivity| |left; reflexivity].
  destruct (_pick_atm_contract _ _ _ _ _ _) as [best|]; [|left; reflexivity].
  destruct (Qlt_bool 0 (_mid best)); [|left; reflexivity].
  destruct (risk_per_pos _ _) as [rpp|]; [|left; reflexivity].
  destruct (negb _); [|left; reflexivity].
  set (legs := choose_legs _ _ _ _ _ _).
  set (qty := _option_qty_for_risk _ _ _).
  pose proof (place_legs_state legs qty e w) as (Hl & Hp & Hs).
  unfold result, run in Hl, Hp, Hs.
  destruct (place_legs legs qty e w) as [[e1 w1] l1]. cbn in *.
  unfold record_entry. rewrite Hp.
  destruct (pending_stop (opt e)) as [ps|]; cbn.
  - right. exists ps. repeat split. exists w1. now rewrite Hs.
  - left. now rewrite Hl.
Qed.

Lemma confirm_step_oneR {W} {PF : Platform W} (p : Params) (now : Time)
    (handles : list Sym) (e : Security) (w : W) :
  let e' := outcome_state (result (confirm_step p now handles e) w) in
  oneR (life e') = oneR (life e)
  \/ (exists pe ps,
        pending_entry (opt e) = Some pe
        /\ pending_stop (opt e) = Some ps
        /\ oneR (life e') = Some (Qabs (pe - ps))
        /\ initial_stop (life e') = Some ps
        /\ exists w', entry_price (life e') = Some (price_of w' (symbol e))).
Proof.
  cbv zeta. unfold confirm_step. monad.
  destruct (pending_entry (opt e)) as [pe|]; [|left; reflexivity].
  destruct (_ && _); [|left; reflexivity].
  match goal with
  | |- context [if ?c then try_enter p now handles pe ?e1 else _] =>
      destruct c; [|left; reflexivity];
      pose proof (try_enter_oneR p now handles pe e1 w) as H
  end.
  cbv zeta in H. unfold result, run in H.
  destruct (try_enter _ _ _ _ _ w) as [[r w1] l1]. cbn in *.
  destruct H as [H | (ps & Hps & Hr & Hi & w' & Hep)].
  - left. exact H.
  - right. exists pe, ps. repeat split; try assumption. now exists w'.
Qed.

(** Across one options-mode bar, [oneR] is unchanged or becomes the
    distance between the pending levels. *)
Lemma on_data_options_sec_oneR {W} {PF : Platform W} (p : Params)
    (now : Time) (handles : list Sym) (e : Security) (w : W) :
  let e' := outcome_state (result (on_data_options_sec p now handles e) w) in
  oneR (life e') = oneR (life e)
  \/ (exists pe ps,
        pending_entry (opt e) = Some pe
        /\ pending_stop (opt e) = Some ps
        /\ oneR (life e') = Some (Qabs (pe - ps))).
Proof.
  cbv zeta. unfold on_data_options_sec. monad.
  pose proof (confirm_step_oneR p now handles e w) as H.
  cbv zeta in H. unfold result, run in H.
  destruct (confirm_step p now handles e w) as [[r w1] l1].
  destruct r as [e1|e1]; cbn in *.
  - destruct (has_pos w e).
    + pose proof (options_exit_oneR p now e1 w1) as Hx.
      unfold result, run in Hx.
      destruct (options_exit p now e1 w1) as [[r2 w2] l2]. cbn in *.
      rewrite Hx.
      destruct H as [H | (pe & ps & Hpe & Hps & Hr & _)];
        [left; exact H | right; now exists pe, ps].
    + cbn. destruct H as [H | (pe & ps & Hpe & Hps & Hr & _)];
        [left; exact H | right; now exists pe, ps].
  - destruct H as [H | (pe & ps & Hpe & Hps & Hr & _)];
      [left; exact H | right; now exists pe, ps].
Qed.

(** The entry fill sets [oneR] to the distance between the fill price and
    the initial stop. *)
Lemma on_order_event_entry_oneR {W} {PF : Platform W} (p : Params)
    (now : Time) (ev : OrderEvent) (sec : Security) (et : Ticket) (w : W) :
  let e' := result (on_order_event_entry p now ev sec et) w in
  exists istop,
    entry_price (life e') = Some (ev_fill_price ev)
    /\ initial_stop (life e') = Some istop
    /\ current_stop (life e') = Some istop
    /\ oneR (life e') = Some (Qabs (ev_fill_price ev - istop)).
Proof.
  cbv zeta. unfold on_order_event_entry. monad.
  set (istop := match initial_stop (life sec) with
                | Some s => s
                | None => _
                end).
  exists istop.
  destruct (perform w _) as [w1 sid].
  destruct (1 <=? _)%Z; [destruct (perform w1 _) as [w2 tid]|];
    cbn; repeat split; reflexivity.
Qed.

Lemma on_order_event_stop_idle {W} {PF : Platform W} (sec : Security)
    (w : W) :
  life (result (on_order_event_stop sec) w) = idle.
Proof.
  unfold on_order_event_stop. monad.
  destruct (tp_ticket (life sec)); [|reflexivity].
  destruct (negb _); [destruct (perform w _)|]; reflexivity.
Qed.

Lemma on_order_event_tp_oneR {W} {PF : Platform W} (now : Time)
    (ev : OrderEvent) (sec : Security) (w : W) :
  oneR (life (result (on_order_event_tp now ev sec) w)) = oneR (life sec).
Proof.
  unfold on_order_event_tp. monad.
  destruct (stop_loss_ticket (life sec)); [|reflexivity].
  destruct (invested w (ev_symbol ev)); cbn;
    repeat (destruct (perform _ _)); cbn;
    destruct (entry_price (life sec)); cbn;
    repeat (destruct (perform _ _)); reflexivity.
Qed.

Lemma on_data_equity_sec_oneR {W} {PF : Platform W} (p : Params)
    (now : Time) (e : Security) (w : W) :
  oneR (life (result (on_data_equity_sec p now e) w)) = oneR (life e).
Proof.
  destruct (on_data_equity_sec_cases p now e w)
    as [[_ [-> | (hw & lw & ->)]] | (st & np & hw & lw & _ & _ & -> & _)];
    reflexivity.
Qed.

Lemma time_stop_sec_life {W} {PF : Platform W} (p : Params) (now : Time)
    (e : Security) (w : W) :
  life (result (time_stop_sec p now e) w) = life e.
Proof.
  unfold time_stop_sec.
  destruct (negb (_use_options p)); monad.
  - destruct (negb (invested w (symbol e))); [reflexivity|].
    destruct (negb (entered_today now (life e))); [reflexivity|].
    destruct (negb (moved_to_breakeven (life e))); [|reflexivity].
    now destruct (perform w _).
  - destruct (negb (has_pos w e)); [reflexivity|].
    destruct (negb (entered_today now (life e))); [reflexivity|].
    destruct (negb (moved_to_breakeven (life e))); [|reflexivity].
    pose proof (close_option_position_life e w) as H.
    unfold result, run in H. cbn.
    destruct (_close_option_position e w) as [[e3 w3] l3]. cbn in *.
    now subst e3.
Qed.

(** C3, as stated, fails in options mode.  In the replayed options entry
    the position records the entry price 103 (the underlying's price at
    confirmation) and the initial stop 101, but [oneR] is 1, the distance
    between the pending entry level 102 and the stop, not
    [|103 - 101| = 2]. *)
Lemma C3_options_oneR_differs_from_entry_minus_stop :
  let e := outcome_state (state_of (options_entry false)) in
  entry_price (life e) = Some 103
  /\ initial_stop (life e) = Some 101
  /\ option_map Qred (oneR (life e)) = Some 1
  /\ Qabs (103 - 101) == 2
  /\ ~ 1 == Qabs (103 - 101).
Proof.
  vm_compute. repeat split; try reflexivity. intros H. discriminate H.
Qed.

Lemma place_legs_calls {W} {PF : Platform W} (legs : Legs) (qty : Z)
    (e : Security) (w : W) :
  calls (place_legs legs qty e) w <> [].
Proof.
  unfold place_legs. monad.
  destruct legs; repeat (destruct (perform _ _)); cbn; discriminate.
Qed.

(** An options entry attempt places no order and leaves the lifecycle
    attributes alone, or places the leg orders and records the entry: the
    underlying's price as entry price and, from the pending levels, the stop
    and [oneR]; without a pending stop it raises after the entry price. *)
Lemma try_enter_cases {W} {PF : Platform W} (p : Params) (now : Time)
    (handles : list Sym) (pe : Q) (e : Security) (w : W) :
  let r := run (try_enter p now handles pe e) w in
  let e' := outcome_state (fst (fst r)) in
  (snd r = [] /\ life e' = life e)
  \/ (snd r <> []
      /\ entry_price (life e') = Some (price_of (snd (fst r)) (symbol e))
      /\ match pending_stop (opt e) with
         | Some ps =>
             raised (fst (fst r)) = false
             /\ initial_stop (life e') = Some ps
             /\ oneR (life e') = Some (Qabs (pe - ps))
         | None =>
             raised (fst (fst r)) = true
             /\ initial_stop (life e') = initial_stop (life e)
             /\ oneR (life e') = oneR (life e)
         end).
Proof.
  cbv zeta. unfold try_enter. monad.
  destruct (_get_chain handles w (symbol e)) as [[|c chain]|];
    [left; split; reflexivity| |left; split; reflexivity].
  destruct (_pick_atm_contract _ _ _ _ _ _) as [best|];
    [|left; split; reflexivity].
  destruct (Qlt_bool 0 (_mid best)); [|left; split; reflexivity].
  destruct (risk_per_pos _ _) as [rpp|]; [|left; split; reflexivity].
  destruct (negb _); [|left; split; reflexivity].
  set (legs := choose_legs _ _ _ _ _ _).
  set (qty := _option_qty_for_risk _ _ _).
  pose proof (place_legs_state legs qty e w) as (Hl & Hp & Hs).
  pose proof (place_legs_calls legs qty e w) as Hc.
  unfold result, calls, run in Hl, Hp, Hs, Hc.
  destruct (place_legs legs qty e w) as [[e1 w1] l1]. cbn [fst snd] in *.
  right. rewrite app_nil_r. split; [exact Hc|].
  unfold record_entry. rewrite Hp.
  destruct (pending_stop (opt e)) as [ps|]; cbn; rewrite Hs.
  - repeat split.
  - rewrite Hl. repeat split.
Qed.

Lemma confirm_step_cases {W} {PF : Platform W} (p : Params) (now : Time)
    (handles : list Sym) (e : Security) (w : W) :
  let r := run (confirm_step p now handles e) w in
  let e' := outcome_state (fst (fst r)) in
  (snd r = [] /\ life e' = life e)
  \/ (snd r <> []
      /\ entry_price (life e') = Some (price_of (snd (fst r)) (symbol e))
      /\ exists pe,
           pending_entry (opt e) = Some pe
           /\ match pending_stop (opt e) with
              | Some ps =>
                  raised (fst (fst r)) = false
                  /\ initial_stop (life e') = Some ps
                  /\ oneR (life e') = Some (Qabs (pe - ps))
              | None =>
                  raised (fst (fst r)) = true
                  /\ initial_stop (life e') = initial_stop (life e)
                  /\ oneR (life e') = oneR (life e)
              end).
Proof.
  cbv zeta. unfold confirm_step. monad.
  destruct (pending_entry (opt e)) as [pe|]; [|left; split; reflexivity].
  destruct (_ && _); [|left; split; reflexivity].
  match goal with
  | |- context [if ?c then try_enter p now handles pe ?e1 else _] =>
      destruct c; [|left; split; reflexivity];
      pose proof (try_enter_cases p now handles pe e1 w) as H
  end.
  cbv zeta in H. unfold run in H. cbn [life opt symbol with_opt] in H.
  destruct (try_enter p now handles pe _ w) as [[r w1] l1].
  cbn [fst snd app] in *.
  destruct H as [H | (Hc & Hep & Hps)]; [left; exact H|].
  right. split; [exact Hc|]. split; [exact Hep|].
  exists pe. split; [reflexivity|]. exact Hps.
Qed.

(** C3.  [oneR] is set at entry and fixed afterwards.

    Equity mode.  The fill of the entry order records the fill price as
    entry price and sets [oneR] to [|fill price - initial stop|], the initial
    stop being the one armed by the scan or, lacking that, [distance * ATR]
    behind the fill.  The fill of the protective stop ends the position: all
    lifecycle attributes are reset.  No other order event changes [oneR],
    in particular not the take-profit fill; nor do the per-bar breakeven and
    trailing logic or the time stop.

    Options mode.  A confirmation step that places no order leaves the
    lifecycle attributes as they are.  One that enters records the
    underlying's price as entry price, the pending stop level as initial
    stop, and [oneR = |pending entry level - pending stop level|], the
    distance of the signal levels, not of the recorded entry price.  The
    exit management of the same bar and of later bars never changes
    [oneR]. *)
Theorem C3_oneR_set_at_entry_then_fixed {W} {PF : Platform W} (p : Params)
    (now : Time) (e : Security) (w : W) :
  (forall ev et,
     ev_status ev = Filled ->
     entry_ticket (life e) = Some et ->
     ev_order_id ev = order_id et ->
     let e' := result (on_order_event_sec p now ev e) w in
     let istop :=
       match initial_stop (life e) with
       | Some s0 => s0
       | None => ev_fill_price ev
                 - inject_Z (sign_of (ticket_quantity et))
                   * _stop_loss_atr_distance p
                   * atr_current_value w (symbol e)
       end in
     entry_price (life e') = Some (ev_fill_price ev)
     /\ initial_stop (life e') = Some istop
     /\ oneR (life e') = Some (Qabs (ev_fill_price ev - istop)))
  /\ (forall ev,
        ev_status ev = Filled ->
        ticket_matches (entry_ticket (life e)) (ev_order_id ev) = false ->
        ticket_matches (stop_loss_ticket (life e)) (ev_order_id ev) = true ->
        life (result (on_order_event_sec p now ev e) w) = idle)
  /\ (forall ev,
        ev_status ev <> Filled
        \/ (ticket_matches (entry_ticket (life e)) (ev_order_id ev) = false
            /\ ticket_matches (stop_loss_ticket (life e)) (ev_order_id ev)
               = false) ->
        oneR (life (result (on_order_event_sec p now ev e) w))
        = oneR (life e))
  /\ (forall ev,
        oneR (life (result (on_order_event_tp now ev e) w)) = oneR (life e))
  /\ oneR (life (result (on_data_equity_sec p now e) w)) = oneR (life e)
  /\ life (result (time_stop_sec p now e) w) = life e
  /\ (forall handles,
        let r := run (confirm_step p now handles e) w in
        let e' := outcome_state (fst (fst r)) in
        (snd r = [] -> life e' = life e)
        /\ (snd r <> [] ->
            entry_price (life e') = Some (price_of (snd (fst r)) (symbol e))
            /\ exists pe,
                 pending_entry (opt e) = Some pe
                 /\ (forall ps, pending_stop (opt e) = Some ps ->
                       initial_stop (life e') = Some ps
                       /\ oneR (life e') = Some (Qabs (pe - ps)))
                 /\ (pending_stop (opt e) = None ->
                     raised (fst (fst r)) = true
                     /\ oneR (life e') = oneR (life e))))
  /\ (forall handles,
        oneR (life (outcome_state
                      (result (on_data_options_sec p now handles e) w)))
        = oneR (life (outcome_state
                        (result (confirm_step p now handles e) w))))
  /\ oneR (life (outcome_state (result (options_exit p now e) w)))
     = oneR (life e).
Proof.
  split; [|split; [|split; [|split; [|split; [|split; [|split; [|split]]]]]]].
  - intros ev et Hs Het Hid. cbv zeta. unfold on_order_event_sec.
    rewrite Hs, Het. cbn [OrderStatus_eqb negb ticket_matches].
    rewrite Hid, Nat.eqb_refl.
    unfold on_order_event_entry. monad.
    destruct (perform w _) as [w1 sid].
    destruct (1 <=? _)%Z; [destruct (perform w1 _) as [w2 tid]|];
      cbn; repeat split; reflexivity.
  - intros ev Hs He Hst. unfold on_order_event_sec.
    rewrite Hs, He, Hst. cbn [OrderStatus_eqb negb].
    apply on_order_event_stop_idle.
  - intros ev [Hs | [He Hst]]; unfold on_order_event_sec.
    + destruct (ev_status ev); try reflexivity. contradiction.
    + destruct (negb _); [reflexivity|]. rewrite He, Hst.
      destruct (ticket_matches (tp_ticket (life e)) (ev_order_id ev));
        [apply on_order_event_tp_oneR | reflexivity].
  - intros ev. apply on_order_event_tp_oneR.
  - apply on_data_equity_sec_oneR.
  - apply time_stop_sec_life.
  - intros handles. cbv zeta.
    destruct (confirm_step_cases p now handles e w)
      as [[Hc Hl] | (Hc & Hep & pe & Hpe & Hps)]; cbv zeta in *.
    + split; [intros _; exact Hl | intros Hn; contradiction].
    + split; [intros Hn; contradiction | intros _].
      split; [exact Hep|]. exists pe. split; [exact Hpe|]. split.
      * intros ps Hp. rewrite Hp in Hps. destruct Hps as (_ & H1 & H2).
        now split.
      * intros Hp. rewrite Hp in Hps. destruct Hps as (H1 & _ & H2).
        now split.
  - intros handles. unfold on_data_options_sec. monad.
    destruct (confirm_step p now handles e w) as [[r w1] l1].
    destruct r as [e1 | e1]; cbn [fst snd outcome_state]; [|reflexivity].
    destruct (has_pos w e); [|reflexivity].
    pose proof (options_exit_oneR p now e1 w1) as Hx.
    unfold result, run in Hx.
    destruct (options_exit p now e1 w1) as [[r2 w2] l2]. cbn in *.
    exact Hx.
  - apply options_exit_oneR.
Qed.

(** ** Pending confirmations *)

Lemma store_same (a : Algo) (s : Sym) (e : Security) :
  securities (store a s e) s = e.
Proof. unfold store. cbn. now rewrite Nat.eqb_refl. Qed.

Lemma select_securities (a : Algo) (s : Sym) :
  securities (select a s) = securities a.
Proof. unfold select. now destruct (existsb _ _). Qed.

Lemma ensure_option_chain_securities {W} {PF : Platform W} (a : Algo)
    (s : Sym) (w : W) :
  securities (result (_ensure_option_chain a s) w) = securities a.
Proof.
  unfold _ensure_option_chain. monad.
  destruct (existsb _ _); [reflexivity|]. now destruct (perform w _).
Qed.

(** What the scan arms for an accepted candidate in options mode. *)
Lemma place_order_arms {W} {PF : Platform W} (p : Params) (now : Time)
    (total i : Z) (o : Order) (a : Algo) (w : W) :
  _use_options p = true ->
  opt (securities
         (outcome_state (result (place_order p now total (i, o) a) w))
         (o_equity o))
  = arm_pending p now o (opt (securities a (o_equity o))).
Proof.
  intros Hopt. unfold place_order. rewrite Hopt. cbn.
  unfold place_options. monad.
  match goal with
  | |- context [_ensure_option_chain ?a1 ?s w] =>
      pose proof (ensure_option_chain_securities a1 s w) as H;
      unfold result, run in H;
      destruct (_ensure_option_chain a1 s w) as [[a2 w2] l2]
  end.
  cbn [fst snd] in H. cbn. rewrite H, store_same. cbn.
  now rewrite select_securities.
Qed.

(** Before the ready time the confirmation step does nothing at all. *)
Lemma confirm_step_waits {W} {PF : Platform W} (p : Params) (now : Time)
    (handles : list Sym) (e : Security) (w : W) (ready : Time) :
  confirm_ready_time (opt e) = Some ready ->
  (now < ready)%Z ->
  run (confirm_step p now handles e) w = (Done e, w, []).
Proof.
  intros Hr Hlt. unfold confirm_step, confirm_ready. rewrite Hr.
  destruct (pending_entry (opt e)); [|reflexivity].
  apply Z.leb_gt in Hlt. rewrite Hlt, andb_false_r. reflexivity.
Qed.

Lemma sim_next_open_after (t : Time) : (t < sim_next_open t)%Z.
Proof.
  unfold sim_next_open, Time in *.
  destruct (t <? t / 1440 * 1440 + 570)%Z eqn:E.
  - now apply Z.ltb_lt in E.
  - apply Z.ltb_ge in E.
    pose proof (Z.div_mod t 1440). pose proof (Z.mod_pos_bound t 1440). lia.
Qed.

(** C4.  For every candidate the scan accepts in options mode, the armed
    ready time is the exchange's next market open after the scan time plus
    the confirm delay.  The scan runs inside the session, so on a calendar
    whose next open lies strictly after the time asked about, the ready
    time is later than the current session's open plus the delay (it is
    the following session's), and the confirmation step places no order and
    changes nothing at any time before it: the claimed ready time, session
    open plus delay, is not what the code arms. *)
Theorem C4_ready_time_is_next_open_plus_delay {W} {PF : Platform W}
    (p : Params) (now session_open : Time) (total i : Z) (o : Order)
    (a : Algo) (w : W) :
  _use_options p = true ->
  (session_open <= now)%Z ->
  (forall t : Time, (t < get_next_market_open t)%Z) ->
  let e' := securities
              (outcome_state (result (place_order p now total (i, o) a) w))
              (o_equity o) in
  let ready := add_minutes (get_next_market_open now) (_confirm_delay_min p) in
  confirm_ready_time (opt e') = Some ready
  /\ pending_dir (opt e') = o_dir o
  /\ pending_entry (opt e') = Some (o_entry_price o)
  /\ pending_stop (opt e') = Some (o_stop_price o)
  /\ (add_minutes session_open (_confirm_delay_min p) < ready)%Z
  /\ confirm_ready_time (opt e')
     <> Some (add_minutes session_open (_confirm_delay_min p))
  /\ (forall (now' : Time) handles w',
        (now' < ready)%Z ->
        run (confirm_step p now' handles e') w' = (Done e', w', [])).
Proof.
  intros Hopt Hso Hcal e' ready.
  assert (Ho : opt e' = arm_pending p now o (opt (securities a (o_equity o)))).
  { subst e'. now apply place_order_arms. }
  assert (Hr : confirm_ready_time (opt e') = Some ready).
  { rewrite Ho. reflexivity. }
  assert (Hlt : (add_minutes session_open (_confirm_delay_min p) < ready)%Z).
  { subst ready. unfold add_minutes. specialize (Hcal now). lia. }
  repeat split; try (rewrite Ho; reflexivity); try assumption.
  - rewrite Hr. intros H. injection H as H. lia.
  - intros now' handles w' Hn. now apply confirm_step_waits with (ready := ready).
Qed.

(** C4 on the replayed scan: the scan of 09:35 (minute 575) in a session
    opened at 09:30 (minute 570), confirm delay 7: the candidate is armed
    for minute 2017, 09:37 of the following day, not for minute 577. *)
Lemma C4_ready_time_is_next_open_plus_delay_witness :
  let p := with_options scan_params false in
  let o := long_order p scan_world (tail 5 scan_frame) 1 in
  let e' := securities
              (outcome_state
                 (result (place_order p 575 2 (1%Z, o) scan_algo) scan_world))
              1%nat in
  confirm_ready_time (opt e') = Some 2017%Z
  /\ add_minutes 570 (_confirm_delay_min p) = 577%Z.
Proof.
  cbv zeta. split; [|reflexivity].
  assert (Hso : (570 <= 575)%Z) by lia.
  exact (proj1 (C4_ready_time_is_next_open_plus_delay
                  (with_options scan_params false) 575 570 2 1
                  (long_order (with_options scan_params false) scan_world
                     (tail 5 scan_frame) 1)
                  scan_algo scan_world eq_refl Hso sim_next_open_after)).
Defined.

(** ** Sizing *)

Lemma pydiv_pos (a b : Q) : 0 < b -> pydiv a b = Some (a / b).
Proof.
  intros H. unfold pydiv.
  destruct (Qeq_bool b 0) eqn:E; [|reflexivity].
  apply Qeq_bool_iff in E. rewrite E in H. now apply Qlt_irrefl in H.
Qed.

Lemma denom_floor (o : Order) : 1e-6 <= denom o.
Proof. unfold denom. apply Q.le_max_r. Qed.

Lemma denom_pos (o : Order) : 0 < denom o.
Proof.
  apply Qlt_le_trans with (y := 1e-6); [reflexivity | apply denom_floor].
Qed.

Lemma py_int_in_range (x : Q) :
  Qabs x < float_overflow -> py_int x = Some (int_trunc x).
Proof.
  intros H. unfold py_int.
  destruct (Qle_bool float_overflow (Qabs x)) eqn:E; [|reflexivity].
  apply Qle_bool_iff in E. exfalso. apply (Qlt_not_le _ _ H E).
Qed.

Lemma py_int_overflow (x : Q) :
  float_overflow <= Qabs x -> py_int x = None.
Proof.
  intros H. unfold py_int. apply Qle_bool_iff in H. now rewrite H.
Qed.

Lemma int_trunc_abs_le (x : Q) : inject_Z (Z.abs (int_trunc x)) <= Qabs x.
Proof.
  destruct x as [n d]. unfold int_trunc, Qabs, Qle. cbn [Qnum Qden inject_Z].
  rewrite Z.mul_1_r.
  rewrite <- Z.quot_abs by lia.
  change (Z.abs (Z.pos d)) with (Z.pos d).
  rewrite Z.mul_comm.
  apply Z.mul_quot_le; lia.
Qed.

(** The divisor [max(abs(entry - stop), 1e-6)]: the distance between entry
    and stop where that is at least [1e-6], and [1e-6] below that. *)
Lemma denom_cases (o : Order) :
  Qabs (o_entry_price o - o_stop_price o) <= denom o
  /\ (1e-6 <= Qabs (o_entry_price o - o_stop_price o) ->
      denom o == Qabs (o_entry_price o - o_stop_price o))
  /\ (Qabs (o_entry_price o - o_stop_price o) <= 1e-6 -> denom o == 1e-6).
Proof.
  unfold denom. repeat split.
  - apply Q.le_max_l.
  - intros H. now apply Q.max_l.
  - intros H. now apply Q.max_r.
Qed.

Lemma max_positions_divides (p : Params) (x : Q) :
  _max_positions p <> 0%Z ->
  pydiv x (inject_Z (_max_positions p))
  = Some (x / inject_Z (_max_positions p)).
Proof.
  intros Hk. unfold pydiv.
  destruct (Qeq_bool (inject_Z (_max_positions p)) 0) eqn:E; [|reflexivity].
  apply Qeq_bool_iff in E. unfold Qeq in E. cbn in E. lia.
Qed.

(** C10.  With a non-zero [max-positions] and a quotient within the floats,
    the risk-based quantity of a candidate is defined.  [risk_per_pos] is
    [risk_size * portfolio_value / max_positions]; the divisor is
    [max(|entry - stop|, 1e-6)], that is [|entry - stop|] where that is at
    least [1e-6] and [1e-6] otherwise, in particular when entry and stop
    coincide; it is positive, so the division by it never raises; and the
    quantity is [int(risk_per_pos / divisor) * sign], an integer bounded by
    the quotient. *)
Theorem C10_risk_quantity_is_total (p : Params) (tpv : Q) (o : Order) :
  let rpp := _stop_loss_risk_size p * tpv / inject_Z (_max_positions p) in
  let dist := Qabs (o_entry_price o - o_stop_price o) in
  _max_positions p <> 0%Z ->
  Qabs (rpp / denom o) < float_overflow ->
  risk_per_pos p tpv = Some rpp
  /\ dist <= denom o
  /\ 1e-6 <= denom o
  /\ 0 < denom o
  /\ (1e-6 <= dist -> denom o == dist)
  /\ (dist <= 1e-6 -> denom o == 1e-6)
  /\ (o_entry_price o == o_stop_price o -> denom o == 1e-6)
  /\ pydiv rpp (denom o) = Some (rpp / denom o)
  /\ risk_qty rpp o
     = Some (int_trunc (rpp / denom o) * sign_of (o_dir o))%Z
  /\ inject_Z (Z.abs (int_trunc (rpp / denom o) * sign_of (o_dir o)))
     <= Qabs (rpp / denom o).
Proof.
  intros rpp dist Hk Hfin.
  destruct (denom_cases o) as (Hd1 & Hd2 & Hd3).
  split; [apply max_positions_divides, Hk|].
  split; [exact Hd1|]. split; [apply denom_floor|]. split; [apply denom_pos|].
  split; [exact Hd2|]. split; [exact Hd3|].
  split.
  { intros He. apply Hd3.
    assert (H0 : o_entry_price o - o_stop_price o == 0) by (rewrite He; ring).
    rewrite H0. discriminate. }
  split; [apply pydiv_pos, denom_pos|].
  split.
  { unfold risk_qty. rewrite (pydiv_pos _ _ (denom_pos o)).
    now rewrite (py_int_in_range _ Hfin). }
  assert (Ha : Z.abs (int_trunc (rpp / denom o) * sign_of (o_dir o))
               = Z.abs (int_trunc (rpp / denom o))).
  { unfold sign_of. destruct (0 <? o_dir o)%Z; lia. }
  rewrite Ha. apply int_trunc_abs_le.
Qed.

(** C10 on the replayed scan: the long order of symbol 1 with the default
    parameters, risk 12,500 over a distance of 1. *)
Lemma C10_risk_quantity_is_total_witness :
  let o := long_order default_params scan_world (tail 5 scan_frame) 1 in
  risk_per_pos default_params 10000000 = Some (0.01 * 10000000 / inject_Z 8)
  /\ risk_qty (0.01 * 10000000 / inject_Z 8) o = Some 12500%Z.
Proof.
  cbv zeta.
  assert (Hk : _max_positions default_params <> 0%Z) by discriminate.
  assert (Hfin : Qabs (_stop_loss_risk_size default_params * 10000000
                       / inject_Z (_max_positions default_params)
                       / denom (long_order default_params scan_world
                                  (tail 5 scan_frame) 1))
                 < float_overflow) by (vm_compute; reflexivity).
  pose proof (C10_risk_quantity_is_total default_params 10000000
                (long_order default_params scan_world (tail 5 scan_frame) 1)
                Hk Hfin) as H.
  split; [exact (proj1 H)|].
  destruct H as (_ & _ & _ & _ & _ & _ & _ & _ & H & _).
  exact H.
Defined.

(** C10, as stated, fails: the sizing is not total.  With [max-positions]
    set to 0 the division of line 233 raises, and the whole sizing with it;
    and with entry and stop at the same level the divisor is [1e-6], so a
    risk budget of [2^1010] (about 1.1e304, a finite float) gives a quotient
    beyond the floats, on which [int] raises. *)
Lemma C10_sizing_raises_without_positions_or_beyond_floats :
  let p0 := with_max_positions default_params 0 in
  let o := long_order p0 scan_world (tail 5 scan_frame) 1 in
  let flat := {| o_equity := 1; o_entry_price := 100; o_stop_price := 100;
                 o_dir := 1 |} in
  risk_per_pos p0 (total_portfolio_value scan_world) = None
  /\ sized_qty p0 scan_world 1 1 o = None
  /\ raised (result (place_equity p0 1 1 o scan_algo) scan_world) = true
  /\ denom flat == 1e-6
  /\ inject_Z (2 ^ 1010) < float_overflow
  /\ float_overflow <= inject_Z (2 ^ 1010) / denom flat
  /\ risk_qty (inject_Z (2 ^ 1010)) flat = None.
Proof.
  vm_compute. repeat split; try reflexivity; intros H; discriminate H.
Qed.

(** With a non-zero [max-positions] and a risk quotient within the floats
    the whole sizing goes through. *)
Lemma sized_qty_total {W} {PF : Platform W} (p : Params) (w : W)
    (total i : Z) (o : Order) :
  _max_positions p <> 0%Z ->
  Qabs (_stop_loss_risk_size p * total_portfolio_value w
        / inject_Z (_max_positions p) / denom o) < float_overflow ->
  exists qty, sized_qty p w total i o = Some qty.
Proof.
  intros Hk Hfin.
  unfold sized_qty, risk_per_pos, risk_qty.
  rewrite !(max_positions_divides p _ Hk).
  rewrite (pydiv_pos _ _ (denom_pos o)), (py_int_in_range _ Hfin).
  eexists. reflexivity.
Qed.

Lemma int_trunc_le (x : Q) : 0 <= x -> inject_Z (int_trunc x) <= x.
Proof.
  intros Hx. destruct x as [n d]. unfold int_trunc, Qle in *. cbn in *.
  rewrite Z.mul_1_r in *.
  rewrite Z.quot_div_nonneg by lia.
  rewrite Z.mul_comm. apply Z.mul_div_le. lia.
Qed.

Lemma cap_qty_abs (q cap : Z) : (0 <= cap)%Z -> (Z.abs (cap_qty q cap) <= cap)%Z.
Proof.
  intros H. unfold cap_qty, sign_of. destruct (0 <? q)%Z; lia.
Qed.

Lemma int_trunc_nonneg (x : Q) : 0 <= x -> (0 <= int_trunc x)%Z.
Proof.
  intros Hx. destruct x as [n d]. unfold int_trunc, Qle in *. cbn in *.
  apply Z.quot_pos; lia.
Qed.

Lemma max_qty_by_margin_nonneg (pom lev price : Q) :
  (0 <= max_qty_by_margin pom lev price)%Z.
Proof. apply int_trunc_nonneg, Q.le_max_l. Qed.

Lemma Qdiv_le_antimono (x a b : Q) :
  0 <= x -> 0 < a -> a <= b -> x / b <= x / a.
Proof.
  intros Hx Ha Hab.
  assert (Hb : 0 < b) by lra.
  apply Qle_shift_div_r; [assumption|].
  set (y := x / a).
  assert (Hy : y * a == x) by (subst y; field; lra).
  assert (Hy0 : 0 <= y) by (subst y; apply Qle_shift_div_l; [assumption|lra]).
  nra.
Qed.

(** The margin cap is below [per_order_margin * lev / price] whenever the
    price is positive and the margin budget is not negative. *)
Lemma max_qty_by_margin_le (pom lev price : Q) :
  0 < price -> 0 <= pom * lev ->
  inject_Z (max_qty_by_margin pom lev price) <= pom * lev / price.
Proof.
  intros Hp Hm. unfold max_qty_by_margin.
  assert (Hd : 0 < Qmax price 1e-6).
  { apply Qlt_le_trans with (y := price); [assumption | apply Q.le_max_l]. }
  assert (H0 : 0 <= pom * lev / Qmax price 1e-6).
  { apply Qle_shift_div_l; [assumption|]. now rewrite Qmult_0_l. }
  apply Qle_trans with (y := Qmax 0 (pom * lev / Qmax price 1e-6)).
  - apply int_trunc_le, Q.le_max_l.
  - rewrite (Q.max_r _ _ H0).
    apply Qdiv_le_antimono; [assumption | assumption | apply Q.le_max_l].
Qed.

(** The entry order a loop step submits carries the quantity sized from
    the platform state of that step. *)
Lemma place_equity_submits_sized_qty {W} {PF : Platform W} (p : Params)
    (total i : Z) (o : Order) (a : Algo) (w0 : W) (qty : Z) :
  let w := fst (perform w0 (AddSecurity (o_equity o) (_leverage p))) in
  sized_qty p w total i o = Some qty ->
  qty <> 0%Z ->
  raises w (StopMarketOrder (o_equity o) qty (o_entry_price o) "Entry")
  = false ->
  calls (place_equity p total i o a) w0
  = [AddSecurity (o_equity o) (_leverage p);
     StopMarketOrder (o_equity o) qty (o_entry_price o) "Entry"].
Proof.
  cbv zeta. intros Hs Hq Hr. unfold place_equity. monad.
  destruct (perform w0 _) as [w1 id1]. cbn in *. rewrite Hs.
  apply Z.eqb_neq in Hq. rewrite Hq, Hr. cbn.
  now destruct (perform w1 _).
Qed.

(** C6.  At the [i]-th of [total] orders the per-order margin is the free
    margin read in the platform state of that step, times the margin buffer,
    divided by [total - i + 1]; the order's quantity is capped by
    [int(max(0, per_order_margin * lev / max(price, 1e-6)))], which for a
    positive entry price and a non-negative budget is at most
    [per_order_margin * lev / price]; and the submitted order carries that
    quantity.  With free margin 100,000, buffer 0.90 and four candidates the
    first budget is 22,500.  In the replayed scan with free margin 1,000,000
    the second order is sized from the margin left after the first (38,672
    shares), not from the figure before the loop (which would allow
    70,312). *)
Theorem C6_margin_apportionment {W} {PF : Platform W} (p : Params)
    (w0 : W) (total i : Z) (o : Order) (a : Algo) (qty : Z) :
  let w := fst (perform w0 (AddSecurity (o_equity o) (_leverage p))) in
  let pom := per_order_margin p (margin_remaining w) total i in
  let lev := lev_or_one (security_leverage w (o_equity o)) in
  (1 <= i <= total)%Z ->
  sized_qty p w total i o = Some qty ->
  pom == margin_remaining w * _margin_buffer p / inject_Z (total - i + 1)
  /\ (Z.abs qty <= max_qty_by_margin pom lev (o_entry_price o))%Z
  /\ (0 < o_entry_price o -> 0 <= pom * lev ->
      inject_Z (Z.abs qty) <= pom * lev / o_entry_price o)
  /\ (qty <> 0%Z ->
      raises w (StopMarketOrder (o_equity o) qty (o_entry_price o) "Entry")
      = false ->
      calls (place_equity p total i o a) w0
      = [AddSecurity (o_equity o) (_leverage p);
         StopMarketOrder (o_equity o) qty (o_entry_price o) "Entry"])
  /\ per_order_margin default_params 100000 4 1 == 22500
  /\ entry_quantities (log_of tight_scan) = [17612; 38672]%Z
  /\ max_qty_by_margin (per_order_margin tight_params 1000000 2 2) 4 51.2
     = 70312%Z.
Proof.
  intros w pom lev Hi Hs.
  assert (Hcap : (Z.abs qty <= max_qty_by_margin pom lev (o_entry_price o))%Z).
  { unfold sized_qty in Hs.
    destruct (risk_per_pos _ _); [|discriminate].
    destruct (risk_qty _ _); [|discriminate].
    destruct (pydiv 1 _); [|discriminate].
    injection Hs as <-. apply cap_qty_abs, max_qty_by_margin_nonneg. }
  repeat split.
  - subst pom. unfold per_order_margin.
    replace (Z.max 1 (total - (i - 1))) with (total - i + 1)%Z by lia.
    reflexivity.
  - exact Hcap.
  - intros Hp Hm.
    apply Qle_trans
      with (y := inject_Z (max_qty_by_margin pom lev (o_entry_price o))).
    + rewrite <- Zle_Qle. exact Hcap.
    + now apply max_qty_by_margin_le.
  - intros Hq Hr. now apply place_equity_submits_sized_qty.
Qed.

(** C6 on the replayed scan with little free margin: the second of two
    orders, sized in the state the first order left behind. *)
Lemma C6_margin_apportionment_witness :
  let o := long_order tight_params tight_world (tail 5 scan_frame) 2 in
  let w0 := world_of
              (run (place_order tight_params 575 2
                      (1%Z, long_order tight_params tight_world
                              (tail 5 scan_frame) 1) scan_algo)
                   tight_world) in
  let w := fst (perform w0 (AddSecurity 2 4)) in
  sized_qty tight_params w 2 2 o = Some 38672%Z
  /\ per_order_margin tight_params (margin_remaining w) 2 2
     == margin_remaining w * 0.90 / inject_Z (2 - 2 + 1).
Proof.
  cbv zeta.
  assert (Hi : (1 <= 2 <= 2)%Z) by lia.
  assert (Hs : sized_qty tight_params
                 (fst (perform
                    (world_of
                       (run (place_order tight_params 575 2
                               (1%Z, long_order tight_params tight_world
                                       (tail 5 scan_frame) 1) scan_algo)
                            tight_world))
                    (AddSecurity 2 4)))
                 2 2 (long_order tight_params tight_world (tail 5 scan_frame) 2)
               = Some 38672%Z) by (vm_compute; reflexivity).
  split; [exact Hs|].
  exact (proj1 (C6_margin_apportionment tight_params _ 2 2
                  (long_order tight_params tight_world (tail 5 scan_frame) 2)
                  scan_algo 38672 Hi Hs)).
Defined.

(** ** Entry and stop levels *)

Lemma fold_left_Qmax_ge (l : list Q) (h : Q) :
  h <= fold_left Qmax l h /\ (forall x, In x l -> x <= fold_left Qmax l h).
Proof.
  revert h. induction l as [|y l IH]; intros h; cbn.
  - split; [apply Qle_refl | intros x []].
  - destruct (IH (Qmax h y)) as [H1 H2]. split.
    + apply Qle_trans with (y := Qmax h y); [apply Q.le_max_l | exact H1].
    + intros x [E | Hx]; [subst y|now apply H2].
      apply Qle_trans with (y := Qmax h x); [apply Q.le_max_r | exact H1].
Qed.

Lemma fold_left_Qmin_le (l : list Q) (h : Q) :
  fold_left Qmin l h <= h /\ (forall x, In x l -> fold_left Qmin l h <= x).
Proof.
  revert h. induction l as [|y l IH]; intros h; cbn.
  - split; [apply Qle_refl | intros x []].
  - destruct (IH (Qmin h y)) as [H1 H2]. split.
    + apply Qle_trans with (y := Qmin h y); [exact H1 | apply Q.le_min_l].
    + intros x [E | Hx]; [subst y|now apply H2].
      apply Qle_trans with (y := Qmin h x); [exact H1 | apply Q.le_min_r].
Qed.

(** The opening-range high and low bound every bar of the symbol in the
    window. *)
Lemma opening_range_bounds (f : DataFrame) (s : Sym) (b : Bar) :
  In b (rows_of f s) ->
  low_by_symbol f s <= b_low b /\ b_high b <= high_by_symbol f s.
Proof.
  intros Hb. unfold low_by_symbol, high_by_symbol.
  apply (in_map b_low) in Hb as Hl. apply (in_map b_high) in Hb as Hh.
  destruct (map b_low (rows_of f s)) as [|l0 ls]; [destruct Hl|].
  destruct (map b_high (rows_of f s)) as [|h0 hs]; [destruct Hh|].
  split.
  - destruct Hl as [E | Hl]; [subst l0|].
    + apply (proj1 (fold_left_Qmin_le ls (b_low b))).
    + now apply (proj2 (fold_left_Qmin_le ls l0)).
  - destruct Hh as [E | Hh]; [subst h0|].
    + apply (proj1 (fold_left_Qmax_ge hs (b_high b))).
    + now apply (proj2 (fold_left_Qmax_ge hs h0)).
Qed.

(** C7.  Every order the scan builds is a long order with
    [entry = OR-high + buffer * ATR] and [stop = entry - distance * ATR], or,
    when shorting is enabled, a short order with
    [entry = OR-low - buffer * ATR] and [stop = entry + distance * ATR];
    its symbol closed up, respectively down, between the two rows of the
    window the scan compares, and passed the guards (ATR ready, positive
    price); and the opening-range high and low bound every bar of the symbol
    in the window.  With OR-high 102, ATR 2, buffer 0.10 and distance 0.5 the
    long entry is 102.20 and the stop 101.20. *)
Theorem C7_entry_and_stop_levels {W} {PF : Platform W} (p : Params) (w : W)
    (gap : Sym -> bool) (f : DataFrame) (open_s close_s : Series)
    (o : Order) :
  In o (build_orders p w gap f open_s close_s) ->
  let s := o_equity o in
  let atr := atr_current_value w s in
  ((o_dir o = 1%Z
    /\ closed_up open_s close_s s = true
    /\ o_entry_price o = high_by_symbol f s + _entry_buffer_atr p * atr
    /\ o_stop_price o = o_entry_price o - _stop_loss_atr_distance p * atr)
   \/ (o_dir o = (-1)%Z
       /\ _long_only p = false
       /\ closed_down open_s close_s s = true
       /\ o_entry_price o = low_by_symbol f s - _entry_buffer_atr p * atr
       /\ o_stop_price o = o_entry_price o + _stop_loss_atr_distance p * atr))
  /\ atr_is_ready w s = true
  /\ 0 < price_of w s
  /\ (forall b, In b (rows_of f s) ->
        low_by_symbol f s <= b_low b /\ b_high b <= high_by_symbol f s)
  /\ (let ex := long_order default_params scan_world (tail 5 scan_frame) 1 in
      high_by_symbol (tail 5 scan_frame) 1 == 102
      /\ atr_current_value scan_world 1%nat == 2
      /\ o_entry_price ex == 102.20
      /\ o_stop_price ex == 101.20).
Proof.
  intros Hin s atr.
  assert (Hguard : forall x, tradable p w gap x = true ->
            atr_is_ready w x = true /\ 0 < price_of w x).
  { intros x Hx. unfold tradable in Hx.
    destruct (atr_is_ready w x); [|discriminate]. cbn in Hx.
    destruct (Qle_bool (price_of w x) 0) eqn:Hp; [discriminate|].
    split; [reflexivity | now apply Qle_bool_false]. }
  unfold build_orders in Hin. apply in_app_or in Hin.
  assert (Hcases :
    (exists x, o = long_order p w f x /\ tradable p w gap x = true
               /\ closed_up open_s close_s x = true)
    \/ (exists x, o = short_order p w f x /\ tradable p w gap x = true
                  /\ closed_down open_s close_s x = true
                  /\ _long_only p = false)).
  { destruct Hin as [Hin | Hin].
    - left. apply in_map_iff in Hin as (x & <- & Hx).
      apply filter_In in Hx as [Hx Ht]. apply filter_In in Hx as [_ Hc].
      now exists x.
    - right. destruct (_long_only p); [destruct Hin|].
      apply in_map_iff in Hin as (x & <- & Hx).
      apply filter_In in Hx as [Hx Ht]. apply filter_In in Hx as [_ Hc].
      now exists x. }
  destruct Hcases as [(x & -> & Ht & Hc) | (x & -> & Ht & Hc & Hl)];
    subst s atr; cbn [o_equity long_order short_order] in *;
    destruct (Hguard x Ht) as [Hr Hp].
  - split; [left; repeat split; assumption|].
    repeat split; try assumption; now apply opening_range_bounds.
  - split; [right; repeat split; assumption|].
    repeat split; try assumption; now apply opening_range_bounds.
Qed.

(** C7 on the replayed scan: the window's rows of opens and closes, and the
    long order of symbol 1 among the orders built from them. *)
Lemma C7_entry_and_stop_levels_witness :
  let f := tail 5 scan_frame in
  let open_s := [(1%nat, Some 100); (2%nat, Some 50)] in
  let close_s := [(1%nat, Some 101.5); (2%nat, Some 50.75)] in
  let o := long_order scan_params scan_world f 1 in
  open_by_symbol f = Some open_s
  /\ close_by_symbol f = Some close_s
  /\ In o (build_orders scan_params scan_world (fun _ => true) f
             open_s close_s)
  /\ atr_is_ready scan_world (o_equity o) = true.
Proof.
  cbv zeta.
  assert (Hin : In (long_order scan_params scan_world (tail 5 scan_frame) 1)
                   (build_orders scan_params scan_world (fun _ => true)
                      (tail 5 scan_frame)
                      [(1%nat, Some 100); (2%nat, Some 50)]
                      [(1%nat, Some 101.5); (2%nat, Some 50.75)])).
  { vm_compute. left. reflexivity. }
  split; [reflexivity|]. split; [reflexivity|].
  split; [exact Hin|].
  exact (proj1 (proj2 (C7_entry_and_stop_levels scan_params scan_world
                         (fun _ => true) (tail 5 scan_frame) _ _ _ Hin))).
Defined.

(** ** Debit spreads *)

Lemma expiry_eqb_eq (a b : option Time) : expiry_eqb a b = true -> a = b.
Proof.
  destruct a, b; cbn; intros H; try discriminate; [|reflexivity].
  apply Z.eqb_eq in H. now subst.
Qed.

Lemma pick_fold_in {W} {PF : Platform W} (p : Params) (now : Time) (w : W)
    (right : OptionRight) (spot : Q) (l : Chain)
    (acc : option Contract * (Z * Q)) (c : Contract) :
  fst (fold_left (pick_step p now w right spot) l acc) = Some c ->
  fst acc = Some c \/ In c l.
Proof.
  revert acc. induction l as [|x l IH]; intros acc H; cbn in *.
  - now left.
  - destruct (IH _ H) as [Hacc | Hin]; [|right; now right].
    unfold pick_step in Hacc.
    destruct (negb (OptionRight_eqb _ _)); [now left|].
    destruct (negb (_liquidity_ok _ _ _)); [now left|].
    destruct (c_expiry x); [|now left].
    destruct (_ || _); [now left|].
    destruct (key_lt _ _); [|now left].
    cbn in Hacc. injection Hacc as ->. right. now left.
Qed.

(** The selected at-the-money contract is a contract of the chain. *)
Lemma pick_atm_in_chain {W} {PF : Platform W} (p : Params) (now : Time)
    (w : W) (chain : Chain) (right : OptionRight) (spot : Q) (c : Contract) :
  _pick_atm_contract p now w chain right spot = Some c -> In c chain.
Proof.
  intros H. apply pick_fold_in in H. now destruct H as [H | H].
Qed.

Lemma find_wing_spec {W} {PF : Platform W} (p : Params) (w : W)
    (chain : Chain) (right : OptionRight) (target : Q) (otm : Contract) :
  find_wing p w chain right target = Some otm ->
  In otm chain /\ c_right otm = right /\ c_strike otm == target
  /\ _liquidity_ok p w otm = true.
Proof.
  intros H. unfold find_wing in H. apply find_some in H as [Hin Hc].
  apply andb_prop in Hc as [Hc Hl]. apply andb_prop in Hc as [Hr Hs].
  repeat split; try assumption.
  - destruct (c_right otm), right; (reflexivity || discriminate).
  - now apply Qeq_bool_iff.
Qed.

(** The legs chosen for an entry: the naked at-the-money leg, or a spread
    whose wing is a liquid contract of the chain on the same right and
    with the long leg's expiry. *)
Lemma choose_legs_cases {W} {PF : Platform W} (p : Params) (w : W)
    (chain : Chain) (right : OptionRight) (dir : Z) (best : Contract) :
  choose_legs p w chain right dir best = Naked best
  \/ (exists otm,
        choose_legs p w chain right dir best = DebitSpread best otm
        /\ _option_use_debit_spread p = true
        /\ In otm chain
        /\ c_right otm = right
        /\ _liquidity_ok p w otm = true
        /\ c_expiry otm = c_expiry best).
Proof.
  unfold choose_legs.
  destruct (_option_use_debit_spread p); [|now left]. cbn.
  destruct (target_otm _ _ _ _ _ _) as [target|]; [|now left].
  destruct (find_wing p w chain right target) as [otm|] eqn:Hw; [|now left].
  destruct (expiry_eqb (c_expiry otm) (c_expiry best)) eqn:He; [|now left].
  right. exists otm. cbn.
  destruct (find_wing_spec _ _ _ _ _ _ Hw) as (Hin & Hr & _ & Hl).
  repeat split; try assumption. now apply expiry_eqb_eq.
Qed.

(** An entry attempt places no order, or exactly the orders of the chosen
    legs, for a best contract picked from the chain. *)
Lemma try_enter_calls {W} {PF : Platform W} (p : Params) (now : Time)
    (handles : list Sym) (pe : Q) (e : Security) (w : W) :
  calls (try_enter p now handles pe e) w = []
  \/ (exists chain best qty right,
        _get_chain handles w (symbol e) = Some chain
        /\ In best chain
        /\ calls (try_enter p now handles pe e) w
           = calls (place_legs
                      (choose_legs p w chain right (pending_dir (opt e)) best)
                      qty e) w).
Proof.
  unfold try_enter. monad.
  destruct (_get_chain handles w (symbol e)) as [[|c chain]|];
    [now left| |now left].
  set (right := if (0 <? pending_dir (opt e))%Z then Call else Put).
  destruct (_pick_atm_contract _ _ _ _ _ _) as [best|] eqn:Hb; [|now left].
  destruct (Qlt_bool 0 (_mid best)); [|now left].
  destruct (risk_per_pos _ _) as [rpp|]; [|now left].
  destruct (negb _); [|now left].
  right.
  exists (c :: chain), best,
    (_option_qty_for_risk (_mid best) rpp (pending_dir (opt e))), right.
  split; [reflexivity|]. split; [now apply pick_atm_in_chain in Hb|].
  destruct (place_legs _ _ _ w) as [[e1 w1] l1]. cbn.
  now rewrite app_nil_r.
Qed.

(** C8.  The legs of an options entry are the naked at-the-money leg, or
    a debit spread whose short wing is a liquid contract of the chain with
    exactly the long leg's expiry.  Without a qualifying wing, or when the
    wing found at the target strike has another expiry, the result is the
    naked at-the-money leg: one market order in that leg and no short leg.
    Whenever the entry logic sells a short leg, it is a contract of the chain
    whose expiry equals that of the long leg bought with it. *)
Theorem C8_debit_spread_legs_share_expiry {W} {PF : Platform W} (p : Params)
    (now : Time) (w : W) (chain : Chain) (right : OptionRight) (dir : Z)
    (best : Contract) (qty : Z) (e : Security) :
  (choose_legs p w chain right dir best = Naked best
   \/ (exists otm,
         choose_legs p w chain right dir best = DebitSpread best otm
         /\ _option_use_debit_spread p = true
         /\ In otm chain
         /\ c_right otm = right
         /\ _liquidity_ok p w otm = true
         /\ c_expiry otm = c_expiry best))
  /\ (target_otm p w chain right dir (c_strike best) = None ->
      choose_legs p w chain right dir best = Naked best)
  /\ (forall target,
        target_otm p w chain right dir (c_strike best) = Some target ->
        find_wing p w chain right target = None ->
        choose_legs p w chain right dir best = Naked best)
  /\ (forall target otm,
        target_otm p w chain right dir (c_strike best) = Some target ->
        find_wing p w chain right target = Some otm ->
        c_expiry otm <> c_expiry best ->
        choose_legs p w chain right dir best = Naked best)
  /\ (calls (place_legs (Naked best) qty e) w
      = [MarketOrder (c_symbol best) qty "ORB_ATM_OPTION"]
      /\ option_long (opt (result (place_legs (Naked best) qty e) w))
         = Some (c_symbol best)
      /\ option_short (opt (result (place_legs (Naked best) qty e) w)) = None)
  /\ (forall handles pe s q,
        In (MarketOrder s q "ORB_DEBIT_SHORT")
           (calls (try_enter p now handles pe e) w) ->
        exists ch b otm,
          _get_chain handles w (symbol e) = Some ch
          /\ In b ch /\ In otm ch
          /\ s = c_symbol otm
          /\ c_expiry otm = c_expiry b
          /\ In (MarketOrder (c_symbol b) (- q) "ORB_DEBIT_LONG")
                (calls (try_enter p now handles pe e) w)).
Proof.
  split; [apply choose_legs_cases|].
  split; [intros Ht; unfold choose_legs; rewrite Ht;
          now destruct (_option_use_debit_spread p)|].
  split; [intros t Ht Hw; unfold choose_legs; rewrite Ht, Hw;
          now destruct (_option_use_debit_spread p)|].
  split.
  { intros t otm Ht Hw Hne. unfold choose_legs. rewrite Ht, Hw.
    destruct (_option_use_debit_spread p); [|reflexivity]. cbn.
    destruct (expiry_eqb _ _) eqn:He; [|reflexivity].
    apply expiry_eqb_eq in He. contradiction. }
  split.
  { unfold place_legs. monad. destruct (perform w _). repeat split. }
  intros handles pe s q Hin.
  destruct (try_enter_calls p now handles pe e w)
    as [Hnil | (ch & b & n & r & Hch & Hb & Hcalls)].
  { rewrite Hnil in Hin. destruct Hin. }
  rewrite Hcalls in Hin |- *.
  destruct (choose_legs_cases p w ch r (pending_dir (opt e)) b)
    as [Hl | (otm & Hl & _ & Hotm & _ & _ & Hexp)];
    rewrite Hl in Hin |- *; unfold place_legs in Hin |- *; monad.
  - destruct (perform w _). cbn in Hin.
    destruct Hin as [Hin | []]. discriminate Hin.
  - destruct (perform w _) as [w1 i1]. destruct (perform w1 _) as [w2 i2].
    cbn in Hin |- *.
    destruct Hin as [Hin | [Hin | []]]; [discriminate Hin|].
    injection Hin as Hs Hq. subst s q.
    exists ch, b, otm. repeat split; try assumption.
    left. now rewrite Z.opp_involutive.
Qed.

(** ** The time stop *)

Lemma entered_today_spec (now : Time) (l : Lifecycle) :
  entered_today now l = true
  <-> exists t, entry_time l = Some t /\ date t = date now.
Proof.
  unfold entered_today. split.
  - destruct (entry_time l) as [t|]; [|discriminate].
    intros H. apply Z.eqb_eq in H. now exists t.
  - intros (t & -> & H). now apply Z.eqb_eq.
Qed.

Lemma for_each_app {W} {PF : Platform W} {A S} (body : A -> S -> @M W S)
    (xs ys : list A) (s : S) (w : W) :
  for_each body (xs ++ ys) s w
  = (let '(s1, w1, l1) := for_each body xs s w in
     let '(s2, w2, l2) := for_each body ys s1 w1 in
     (s2, w2, l1 ++ l2)).
Proof.
  revert s w. induction xs as [|x xs IH]; intros s w; cbn.
  - now destruct (for_each body ys s w) as [[s2 w2] l2].
  - unfold bind at 1 2.
    destruct (body x s w) as [[s0 w0] l0].
    rewrite IH.
    destruct (for_each body xs s0 w0) as [[s1 w1] l1].
    destruct (for_each body ys s1 w1) as [[s2 w2] l2].
    now rewrite app_assoc.
Qed.

Lemma visit_run {W} {PF : Platform W} (body : Security -> @M W Security)
    (s : Sym) (a : Algo) (w : W) :
  run (visit body s a) w
  = (store a s (result (body (securities a s)) w),
     snd (fst (run (body (securities a s)) w)),
     calls (body (securities a s)) w).
Proof.
  unfold visit. monad.
  destruct (body (securities a s) w) as [[e' w1] l1]. cbn.
  now rewrite app_nil_r.
Qed.

Lemma visit_other {W} {PF : Platform W} (body : Security -> @M W Security)
    (xs : list Sym) (a : Algo) (w : W) (k : Sym) :
  ~ In k xs ->
  securities (result (for_each (visit body) xs a) w) k = securities a k.
Proof.
  revert a w. induction xs as [|x xs IH]; intros a w Hk; [reflexivity|].
  cbn [for_each]. unfold result, run, bind.
  pose proof (visit_run body x a w) as Hv. unfold run in Hv. rewrite Hv.
  unfold result, calls, run.
  assert (Hk' : ~ In k xs) by (intros H; apply Hk; now right).
  match goal with
  | |- context [for_each (visit body) xs ?a1 ?w1] =>
      specialize (IH a1 w1 Hk'); unfold result, run in IH;
      destruct (for_each (visit body) xs a1 w1) as [[a2 w2] l2]
  end.
  cbn [fst snd] in *. rewrite IH.
  unfold store. cbn.
  destruct (Nat.eqb k x) eqn:E; [|reflexivity].
  apply Nat.eqb_eq in E. subst. exfalso. apply Hk. now left.
Qed.

(** Every member of [_selected] gets its turn: the loop's calls are those
    made before the member's turn, then the calls of the body on the member
    as the store holds it, in the platform state reached by then, then the
    calls made after. *)
Lemma over_selected_visits {W} {PF : Platform W}
    (body : Security -> @M W Security) (a : Algo) (w : W)
    (pre post : list Sym) (s : Sym) :
  _selected a = pre ++ s :: post ->
  ~ In s pre ->
  exists w_s before after,
    calls (over_selected body a) w
    = before ++ calls (body (securities a s)) w_s ++ after.
Proof.
  intros Hsel Hpre. unfold over_selected. rewrite Hsel.
  unfold calls. rewrite for_each_app.
  pose proof (visit_other body pre a w s Hpre) as Hs.
  unfold result, run in *.
  destruct (for_each (visit body) pre a w) as [[a1 w1] l1]. cbn in Hs.
  cbn [for_each]. unfold bind at 1.
  pose proof (visit_run body s a1 w1) as Hv. unfold run in Hv. rewrite Hv.
  unfold result, calls, run. rewrite Hs.
  match goal with
  | |- context [for_each (visit body) post ?a2 ?w2] =>
      destruct (for_each (visit body) post a2 w2) as [[a3 w3] l3]
  end.
  cbn. exists w1, l1, l3. reflexivity.
Qed.

(** Closing an invested leg sends one market order for the opposite of its
    quantity. *)
Lemma close_leg_invested {W} {PF : Platform W} (l : Sym) (w : W) :
  invested w l = true ->
  quantity w l <> 0%Z ->
  calls (close_leg (Some l)) w
  = [MarketOrder l (- quantity w l) "Exit_BY_UNDERLYING_STOP"].
Proof.
  intros Hi Hq. unfold close_leg. monad. rewrite Hi.
  apply Z.eqb_neq in Hq. rewrite Hq. cbn. now destruct (perform w _).
Qed.

Lemma close_option_position_calls {W} {PF : Platform W} (sec : Security)
    (w : W) :
  calls (_close_option_position sec) w
  = calls (close_leg (option_long (opt sec))) w
    ++ calls (close_leg (option_short (opt sec)))
             (snd (fst (run (close_leg (option_long (opt sec))) w))).
Proof.
  unfold _close_option_position. monad.
  destruct (close_leg (option_long (opt sec)) w) as [[[] w1] l1].
  cbn [fst snd].
  destruct (close_leg (option_short (opt sec)) w1) as [[[] w2] l2].
  cbn. now rewrite app_nil_r.
Qed.

(** C9.  At the time stop, an invested equity position entered today that
    is not at breakeven is liquidated; an options position entered today
    that is not at breakeven has its legs closed at market (each invested
    leg by one market order for the opposite of its quantity) and its leg
    references cleared; a position at breakeven is left exactly as it is and
    no call is made for it; and the event visits every member of
    [_selected]. *)
Theorem C9_time_stop_flattens_unless_breakeven {W} {PF : Platform W}
    (p : Params) (now : Time) (e : Security) (w : W) :
  (_use_options p = false ->
   invested w (symbol e) = true ->
   entered_today now (life e) = true ->
   moved_to_breakeven (life e) = false ->
   run (time_stop_sec p now e) w
   = (e, fst (perform w (Liquidate (symbol e))), [Liquidate (symbol e)]))
  /\ (_use_options p = true ->
      has_pos w e = true ->
      entered_today now (life e) = true ->
      moved_to_breakeven (life e) = false ->
      run (time_stop_sec p now e) w = run (_close_option_position e) w
      /\ result (time_stop_sec p now e) w = with_opt e (clear_legs (opt e))
      /\ calls (time_stop_sec p now e) w
         = calls (close_leg (option_long (opt e))) w
           ++ calls (close_leg (option_short (opt e)))
                    (snd (fst (run (close_leg (option_long (opt e))) w))))
  /\ (forall l w',
        invested w' l = true ->
        quantity w' l <> 0%Z ->
        calls (close_leg (Some l)) w'
        = [MarketOrder l (- quantity w' l) "Exit_BY_UNDERLYING_STOP"])
  /\ (moved_to_breakeven (life e) = true ->
      run (time_stop_sec p now e) w = (e, w, []))
  /\ (entered_today now (life e) = true
      <-> exists t, entry_time (life e) = Some t /\ date t = date now)
  /\ (forall a pre post,
        _selected a = pre ++ symbol e :: post ->
        ~ In (symbol e) pre ->
        securities a (symbol e) = e ->
        exists w_e before after,
          calls (_time_stop_exit p now a) w
          = before ++ calls (time_stop_sec p now e) w_e ++ after).
Proof.
  split.
  { intros Hm Hi Ht Hb. unfold time_stop_sec. rewrite Hm. monad.
    cbv beta iota delta [negb]. rewrite Hi. cbv beta iota. rewrite Ht.
    cbv beta iota. rewrite Hb. cbn. now destruct (perform w _). }
  split.
  { intros Hm Hp Ht Hb.
    assert (Hrun : run (time_stop_sec p now e) w
                   = run (_close_option_position e) w).
    { unfold time_stop_sec. rewrite Hm. monad.
      cbv beta iota delta [negb]. rewrite Hp. cbv beta iota. rewrite Ht.
      cbv beta iota. rewrite Hb. cbn.
      now destruct (_close_option_position e w) as [[e1 w1] l1]. }
    split; [exact Hrun|]. unfold result, calls. unfold run in Hrun.
    rewrite Hrun. split.
    - apply close_option_position_life.
    - apply close_option_position_calls. }
  split; [intros l w'; apply close_leg_invested|].
  split.
  { intros Hb. unfold time_stop_sec. monad. cbv beta.
    destruct (negb (_use_options p)).
    - destruct (negb (invested w (symbol e))); [reflexivity|].
      destruct (negb (entered_today now (life e))); [reflexivity|].
      now rewrite Hb.
    - destruct (negb (has_pos w e)); [reflexivity|].
      destruct (negb (entered_today now (life e))); [reflexivity|].
      now rewrite Hb. }
  split; [apply entered_today_spec|].
  intros a pre post Hsel Hpre He.
  destruct (over_selected_visits (time_stop_sec p now) a w pre post (symbol e)
              Hsel Hpre) as (w_e & before & after & H).
  exists w_e, before, after. unfold _time_stop_exit. now rewrite H, He.
Qed.

(** C9 on the replayed trade, at 10:45 of the entry day: the
    position as the entry fill left it (not at breakeven) is liquidated; the
    position as it stands after the 09:42 bar (at breakeven) is left alone. *)
Lemma C9_time_stop_flattens_unless_breakeven_witness :
  run (time_stop_sec trade_params 645 (state_of trade_1))
      (sim_at (world_of trade_1) 100.5 100)
  = (state_of trade_1,
     fst (perform (sim_at (world_of trade_1) 100.5 100) (Liquidate 1)),
     [Liquidate 1])
  /\ run (time_stop_sec trade_params 645 (state_of trade_3))
         (sim_at (world_of trade_3) 101.5 100)
     = (state_of trade_3, sim_at (world_of trade_3) 101.5 100, []).
Proof.
  split.
  - apply (proj1 (C9_time_stop_flattens_unless_breakeven trade_params 645
                    (state_of trade_1) (sim_at (world_of trade_1) 100.5 100)));
      reflexivity.
  - apply (proj1 (proj2 (proj2 (proj2
             (C9_time_stop_flattens_unless_breakeven trade_params 645
                (state_of trade_3) (sim_at (world_of trade_3) 101.5 100))))));
      reflexivity.
Defined.

(** C8 on the replayed options entry with debit spreads enabled: the first
    contract of the chain at the wing strike 104 expires next week, the
    at-the-money leg today, so the entry is the naked at-the-money leg
    alone. *)
Lemma C8_debit_spread_legs_share_expiry_witness :
  let p := with_options default_params true in
  find_wing p options_world options_chain Call 104 = Some wing_next_week
  /\ c_expiry wing_next_week <> c_expiry atm_call
  /\ choose_legs p options_world options_chain Call 1 atm_call
     = Naked atm_call
  /\ log_of (options_entry true) = [MarketOrder 101 121 "ORB_ATM_OPTION"].
Proof.
  cbv zeta.
  assert (Ht : target_otm (with_options default_params true) options_world
                 options_chain Call 1 (c_strike atm_call) = Some 104)
    by (vm_compute; reflexivity).
  assert (Hw : find_wing (with_options default_params true) options_world
                 options_chain Call 104 = Some wing_next_week)
    by (vm_compute; reflexivity).
  assert (Hne : c_expiry wing_next_week <> c_expiry atm_call)
    by (cbn; discriminate).
  split; [exact Hw|]. split; [exact Hne|]. split; [|vm_compute; reflexivity].
  exact (proj1 (proj2 (proj2 (proj2
           (C8_debit_spread_legs_share_expiry
              (with_options default_params true) 580 options_world
              options_chain Call 1 atm_call 121 armed_options))))
           104 wing_next_week Ht Hw Hne).
Defined.
